(** * Item catalogue data-access layer: a shallow embedding

    The development follows [src/models/items-dao-mongodb.js] and
    [src/models/brand-schema.js].  JavaScript values, the BSON object
    identifier, [JSON.stringify], the MongoDB driver calls the DAO makes and
    the promise the DAO returns are written as Rocq functions over an
    explicit [World]; the three lookups are then the source's control flow,
    line by line.

    A [string] stands for a JavaScript string whose characters are below
    256, one [ascii] per character; letter case is folded on the letters
    [A]-[Z] only. *)

From Stdlib Require Import String Ascii List Bool Arith ZArith Lia.
From Stdlib Require Import Decimal DecimalString DecimalFacts DecimalZ.
Import ListNotations.

Local Open Scope list_scope.
Local Open Scope string_scope.

(** ** JavaScript values reaching the DAO *)

Module Js.

(** The primitive values a caller can pass to a lookup.  [JsNumber] stands
    for an integer-valued number below 10^21 in magnitude, the range in
    which JavaScript prints a number in plain decimal notation. *)
Inductive Value : Type :=
| JsUndefined
| JsNull
| JsBoolean (b : bool)
| JsNumber (z : Z)
| JsString (s : string).

(** An [Error] object: its [name] and its [message]. *)
Record Error : Type := mkError { name : string; message : string }.

Definition decimal (z : Z) : string := NilZero.string_of_int (Z.to_int z).

(** [ToString], as applied by a template literal [`${v}`]. *)
Definition ToString (v : Value) : string :=
  match v with
  | JsUndefined => "undefined"
  | JsNull => "null"
  | JsBoolean true => "true"
  | JsBoolean false => "false"
  | JsNumber z => decimal z
  | JsString s => s
  end.

(** Reading property [prop] of [undefined] throws this [TypeError]. *)
Definition undefined_property (prop : string) : Error :=
  mkError "TypeError" ("Cannot read property '" ++ prop ++ "' of undefined").

End Js.

(** ** Character and string helpers *)

Definition dquote : ascii := "034"%char.
Definition backslash : ascii := "092"%char.
Definition newline : ascii := "010"%char.

Definition str1 (c : ascii) : string := String c EmptyString.

Definition is_upper (c : ascii) : bool :=
  let n := nat_of_ascii c in ((65 <=? n) && (n <=? 90))%nat.

(** ASCII case folding, as a caseless pattern match applies it. *)
Definition to_lower (c : ascii) : ascii :=
  if is_upper c then ascii_of_nat (nat_of_ascii c + 32) else c.

Fixpoint lowercase (s : string) : string :=
  match s with
  | EmptyString => EmptyString
  | String c s' => String (to_lower c) (lowercase s')
  end.

(** [contains needle hay]: [needle] occurs in [hay] as a contiguous run. *)
Fixpoint contains (needle hay : string) : bool :=
  String.prefix needle hay ||
  match hay with
  | EmptyString => false
  | String _ hay' => contains needle hay'
  end.

Definition contains_ci (needle hay : string) : bool :=
  contains (lowercase needle) (lowercase hay).

(** ** BSON object identifiers *)

Module ObjectID.

(** The twelve raw bytes, held as a binary string like the driver does. *)
Record t : Type := mk { id : string }.

Definition eqb (a b : t) : bool := String.eqb (id a) (id b).

Definition hex_digit (n : nat) : ascii :=
  if (n <? 10)%nat then ascii_of_nat (48 + n) else ascii_of_nat (87 + n).

Definition hex_value (c : ascii) : option nat :=
  let n := nat_of_ascii c in
  if ((48 <=? n) && (n <=? 57))%nat then Some (n - 48)
  else if ((97 <=? n) && (n <=? 102))%nat then Some (n - 87)
  else if ((65 <=? n) && (n <=? 70))%nat then Some (n - 55)
  else None.

Fixpoint hex_encode (s : string) : string :=
  match s with
  | EmptyString => EmptyString
  | String c s' =>
      let n := nat_of_ascii c in
      String (hex_digit (n / 16)) (String (hex_digit (n mod 16)) (hex_encode s'))
  end.

Fixpoint hex_decode (s : string) : option string :=
  match s with
  | EmptyString => Some EmptyString
  | String hi (String lo s') =>
      match hex_value hi, hex_value lo, hex_decode s' with
      | Some h, Some l, Some r => Some (String (ascii_of_nat (16 * h + l)) r)
      | _, _, _ => None
      end
  | String _ EmptyString => None
  end.

(** [toHexString]: twenty-four lower-case hexadecimal digits. *)
Definition toHexString (o : t) : string := hex_encode (id o).

(** The error the constructor throws on an argument it cannot read. *)
Definition invalid_argument : Js.Error :=
  Js.mkError "Error"
    "Argument passed in must be a single String of 12 bytes or a string of 24 hex characters".

(** [new ObjectID(s)] on a string: twenty-four hexadecimal characters are
    decoded, twelve characters are taken as the raw bytes, anything else is
    refused. *)
Definition new (s : string) : Js.Error + t :=
  if (String.length s =? 24)%nat then
    match hex_decode s with
    | Some raw => inr (mk raw)
    | None => inl invalid_argument
    end
  else if (String.length s =? 12)%nat then inr (mk s)
  else inl invalid_argument.

(** An identifier the store assigned has twelve bytes. *)
Definition well_formed (o : t) : Prop := String.length (id o) = 12.

End ObjectID.

(** ** Stored documents *)

Module Bson.

(** Field values of a catalogue document.  Fields are scalar: the driver's
    matching of array elements and embedded documents is not modelled. *)
Inductive Value : Type :=
| Null
| Boolean (b : bool)
| Int (z : Z)
| Str (s : string)
| Oid (o : ObjectID.t).

(** A document of a collection: the store-assigned [_id] and the other
    fields in stored order. *)
Record Document : Type := mkDocument {
  _id : ObjectID.t;
  fields : list (string * Value)
}.

Fixpoint assoc (k : string) (l : list (string * Value)) : option Value :=
  match l with
  | [] => None
  | (k', v) :: l' => if String.eqb k k' then Some v else assoc k l'
  end.

(** The value a query sees under a field name. *)
Definition get (d : Document) (k : string) : option Value :=
  if String.eqb k "_id" then Some (Oid (_id d)) else assoc k (fields d).

End Bson.

(** ** JSON text *)

Module Json.

Unset Elimination Schemes.
Inductive t : Type :=
| Null
| Bool (b : bool)
| Number (z : Z)
| Str (s : string)
| Array (l : list t)
| Object (l : list (string * t)).
Set Elimination Schemes.

Definition hex4 (n : nat) : string :=
  String "0" (String "0" (String (ObjectID.hex_digit (n / 16))
    (String (ObjectID.hex_digit (n mod 16)) EmptyString))).

(** One character inside a quoted JSON string (QuoteJSONString). *)
Definition quote_char (c : ascii) : string :=
  let n := nat_of_ascii c in
  if (n =? 34)%nat then String backslash (str1 dquote)
  else if (n =? 92)%nat then String backslash (str1 backslash)
  else if (n =? 8)%nat then String backslash "b"
  else if (n =? 12)%nat then String backslash "f"
  else if (n =? 10)%nat then String backslash "n"
  else if (n =? 13)%nat then String backslash "r"
  else if (n =? 9)%nat then String backslash "t"
  else if (n <? 32)%nat then String backslash (String "u" (hex4 n))
  else str1 c.

Fixpoint quote_body (s : string) : string :=
  match s with
  | EmptyString => str1 dquote
  | String c s' => quote_char c ++ quote_body s'
  end.

Definition quote (s : string) : string := String dquote (quote_body s).

(** [JSON.stringify] without indentation. *)
Fixpoint stringify (j : t) : string :=
  match j with
  | Null => "null"
  | Bool true => "true"
  | Bool false => "false"
  | Number z => Js.decimal z
  | Str s => quote s
  | Array [] => "[]"
  | Array (x :: r) =>
      "[" ++ stringify x ++
      (fix rest (r : list t) : string :=
         match r with
         | [] => "]"
         | y :: r' => "," ++ stringify y ++ rest r'
         end) r
  | Object [] => "{}"
  | Object ((k, x) :: r) =>
      "{" ++ quote k ++ ":" ++ stringify x ++
      (fix rest (r : list (string * t)) : string :=
         match r with
         | [] => "}"
         | (k', y) :: r' => "," ++ quote k' ++ ":" ++ stringify y ++ rest r'
         end) r
  end.

(** The text after the first element of an array, and after the first
    member of an object. *)
Fixpoint elements_text (r : list t) : string :=
  match r with
  | [] => "]"
  | y :: r' => "," ++ stringify y ++ elements_text r'
  end.

Fixpoint members_text (r : list (string * t)) : string :=
  match r with
  | [] => "}"
  | (k, y) :: r' => "," ++ quote k ++ ":" ++ stringify y ++ members_text r'
  end.

Definition of_value (v : Bson.Value) : t :=
  match v with
  | Bson.Null => Null
  | Bson.Boolean b => Bool b
  | Bson.Int z => Number z
  | Bson.Str s => Str s
  | Bson.Oid o => Str (ObjectID.toHexString o)
  end.

(** What [JSON.stringify] walks when handed a document: the identifier goes
    through its [toJSON], that is [toHexString]. *)
Definition of_document (d : Bson.Document) : t :=
  Object (("_id", Str (ObjectID.toHexString (Bson._id d)))
            :: map (fun kv => (fst kv, of_value (snd kv))) (Bson.fields d)).

(** A [findOne] result: the document, or [null]. *)
Definition of_result (r : option Bson.Document) : t :=
  match r with
  | Some d => of_document d
  | None => Null
  end.

Definition of_documents (ds : list Bson.Document) : t :=
  Array (map of_document ds).

(** Structural induction over a JSON value, its elements and the values of
    its members included. *)
Section Induction.

Variable P : t -> Prop.
Hypothesis P_null : P Null.
Hypothesis P_bool : forall b, P (Bool b).
Hypothesis P_number : forall z, P (Number z).
Hypothesis P_str : forall s, P (Str s).
Hypothesis P_array : forall l, Forall P l -> P (Array l).
Hypothesis P_object : forall l, Forall (fun kx => P (snd kx)) l -> P (Object l).

Fixpoint induction (j : t) : P j :=
  match j with
  | Null => P_null
  | Bool b => P_bool b
  | Number z => P_number z
  | Str s => P_str s
  | Array l =>
      P_array l
        ((fix all (l : list t) : Forall P l :=
            match l with
            | [] => Forall_nil P
            | x :: r => Forall_cons x (induction x) (all r)
            end) l)
  | Object l =>
      P_object l
        ((fix all (l : list (string * t)) : Forall (fun kx => P (snd kx)) l :=
            match l with
            | [] => Forall_nil _
            | kx :: r => Forall_cons kx (induction (snd kx)) (all r)
            end) l)
  end.

End Induction.

(** The recursion depth a reader needs for a value, for what follows the
    first element of an array, and for what follows the first member of an
    object. *)
Fixpoint weight (j : t) : nat :=
  match j with
  | Array l =>
      S ((fix go (l : list t) : nat :=
            match l with
            | [] => 1
            | x :: r => S (weight x + go r)
            end) l)
  | Object l =>
      S ((fix go (l : list (string * t)) : nat :=
            match l with
            | [] => 1
            | kx :: r => S (S (weight (snd kx) + go r))
            end) l)
  | _ => 1
  end.

Fixpoint welems (l : list t) : nat :=
  match l with
  | [] => 1
  | x :: r => S (weight x + welems r)
  end.

Fixpoint wmembers (l : list (string * t)) : nat :=
  match l with
  | [] => 1
  | kx :: r => S (S (weight (snd kx) + wmembers r))
  end.

End Json.

(** ** The document server and the process around the DAO *)

(** The pattern engine of the server: a pattern and its options compile to
    a search predicate over a subject, or to the server's error. *)
Definition RegexEngine : Type := string -> string -> Js.Error + (string -> bool).

(** The server: its collections by name, the pattern engine it evaluates
    [$regex] with, and [outage], the failure (connectivity loss and the
    like) the driver reports for a request while it lasts. *)
Record Server : Type := mkServer {
  collections : list (string * list Bson.Document);
  pcre : RegexEngine;
  outage : option Js.Error
}.

(** The handle [utils.dbConnect()] resolves with. *)
Record Db : Type := mkDb { databaseName : string }.

(** What [db.collection(name)] returns. *)
Record Collection : Type := mkCollection { collectionName : string }.

(** Query filters the DAO builds: [{field: ObjectID}], [{field: string}] and
    [{field: {$regex, $options}}]. *)
Inductive Criterion : Type :=
| EqOid (o : ObjectID.t)
| EqStr (s : string)
| Regex (pattern options : string).

Record Filter : Type := mkFilter { field : string; criterion : Criterion }.

(** A request sent to the server. *)
Inductive Request : Type :=
| FindOne (c : Collection) (f : Filter)
| Find (c : Collection) (f : Filter).

Inductive LogLevel : Type := Info | Error.

Record LogRecord : Type := mkLog {
  level : LogLevel;
  text : string;
  source : string
}.

(** The process state the module runs in: the module variable [db]
    ([None] is [undefined]), the server behind the driver, the logging
    sink, and the requests put on the wire so far. *)
Record World : Type := mkWorld {
  db : option Db;
  mongod : Server;
  journal : list LogRecord;
  wire : list Request
}.

(** *** Running JavaScript: state and exceptions *)

Inductive Completion (A : Type) : Type :=
| Normal (a : A)
| Throw (e : Js.Error).
Arguments Normal {A} a.
Arguments Throw {A} e.

Definition Exec (A : Type) : Type := World -> Completion A * World.

Definition ret {A} (a : A) : Exec A := fun w => (Normal a, w).

Definition throw {A} (e : Js.Error) : Exec A := fun w => (Throw e, w).

Definition bind {A B} (c : Exec A) (k : A -> Exec B) : Exec B :=
  fun w =>
    match c w with
    | (Normal a, w') => k a w'
    | (Throw e, w') => (Throw e, w')
    end.

Notation "x <- c ;; k" := (bind c (fun x => k))
  (at level 61, c at next level, right associativity).
Notation "c ;;; k" := (bind c (fun _ => k))
  (at level 61, right associativity).

(** Modelled from the spec: [utils/logger] is not among the sources; the
    logging collaborator accepts (message, source-label) pairs and is used
    for observability only.  A call appends one record to the sink. *)
Definition logger_log (l : LogLevel) (msg src : string) : Exec unit :=
  fun w => (Normal tt,
            mkWorld (db w) (mongod w) (journal w ++ [mkLog l msg src]) (wire w)).

Definition logger_info : string -> string -> Exec unit := logger_log Info.
Definition logger_error : string -> string -> Exec unit := logger_log Error.

(** *** The driver *)

(** [db.collection(name)]; on [undefined] the property read throws. *)
Definition db_collection (name : string) : Exec Collection :=
  fun w =>
    match db w with
    | Some _ => (Normal (mkCollection name), w)
    | None => (Throw (Js.undefined_property "collection"), w)
    end.

(** [new mongodb.ObjectID(id)]. *)
Definition new_ObjectID (id : string) : Exec ObjectID.t :=
  match ObjectID.new id with
  | inr o => ret o
  | inl e => throw e
  end.

Fixpoint lookup_collection (name : string)
    (cs : list (string * list Bson.Document)) : list Bson.Document :=
  match cs with
  | [] => []
  | (n, docs) :: cs' => if String.eqb name n then docs else lookup_collection name cs'
  end.

(** The documents of a collection; a collection never written is empty. *)
Definition documents (s : Server) (c : Collection) : list Bson.Document :=
  lookup_collection (collectionName c) (collections s).

(** The server compiles a filter to a predicate on documents.  A pattern the
    engine refuses fails the whole query. *)
Definition compile (s : Server) (f : Filter) : Js.Error + (Bson.Document -> bool) :=
  match criterion f with
  | EqOid o =>
      inr (fun d => match Bson.get d (field f) with
                    | Some (Bson.Oid o') => ObjectID.eqb o' o
                    | _ => false
                    end)
  | EqStr v =>
      inr (fun d => match Bson.get d (field f) with
                    | Some (Bson.Str v') => String.eqb v' v
                    | _ => false
                    end)
  | Regex pattern options =>
      match pcre s pattern options with
      | inl e => inl e
      | inr search =>
          inr (fun d => match Bson.get d (field f) with
                        | Some (Bson.Str v') => search v'
                        | _ => false
                        end)
      end
  end.

(** What the server answers to a request. *)
Definition answer {A} (s : Server) (f : Filter)
    (select : (Bson.Document -> bool) -> A) : Js.Error + A :=
  match outage s with
  | Some e => inl e
  | None =>
      match compile s f with
      | inl e => inl e
      | inr p => inr (select p)
      end
  end.

Definition send (r : Request) (w : World) : World :=
  mkWorld (db w) (mongod w) (journal w) (wire w ++ [r]).

(** [collection.findOne(filter)]: the first matching document or [null],
    or the driver's error.  The outcome is handed to the caller's
    continuation (callback or promise handlers). *)
Definition findOne (c : Collection) (f : Filter)
    : Exec (Js.Error + option Bson.Document) :=
  fun w =>
    (Normal (answer (mongod w) f (fun p => List.find p (documents (mongod w) c))),
     send (FindOne c f) w).

(** [collection.find(filter).toArray(callback)]: every matching document, in
    stored order, or the driver's error. *)
Definition find_toArray (c : Collection) (f : Filter)
    : Exec (Js.Error + list Bson.Document) :=
  fun w =>
    (Normal (answer (mongod w) f (fun p => List.filter p (documents (mongod w) c))),
     send (Find c f) w).

(** *** Promises *)

(** The envelope every lookup resolves with. *)
Record Envelope : Type := mkEnvelope { data : string; statusCode : Z }.

(** What a lookup rejects with: a message string, or an error object. *)
Inductive Reason : Type :=
| Message (s : string)
| Failure (e : Js.Error).

(** A settled promise. *)
Inductive Promise : Type :=
| Resolved (v : Envelope)
| Rejected (r : Reason).

Definition resolve (v : Envelope) : Exec Promise := ret (Resolved v).
Definition reject (r : Reason) : Exec Promise := ret (Rejected r).

(** [new Promise(executor)]: an exception escaping the executor rejects the
    promise with the thrown value; it does not reach the caller. *)
Definition new_Promise (executor : Exec Promise) (w : World) : Promise * World :=
  match executor w with
  | (Normal p, w') => (p, w')
  | (Throw e, w') => (Rejected (Failure e), w')
  end.

(** ** src/models/items-dao-mongodb.js *)

(** The start of [getDbConnection], run when the module is loaded; the
    promise of [utils.dbConnect()] is still pending when it returns. *)
Definition getDbConnection : Exec unit :=
  logger_info "Initializing MongoDB connection..." "items-dao-mongogb.getDbConnection()".

(** The [then] handler of [getDbConnection]: [db = database]. *)
Definition getDbConnection_then (database : Db) : Exec unit :=
  logger_info "MongoDB connection initialized." "items-dao-mongogb.getDbConnection()" ;;;
  fun w => (Normal tt, mkWorld (Some database) (mongod w) (journal w) (wire w)).

(** The [catch] handler of [getDbConnection]: the failure is logged only. *)
Definition getDbConnection_catch (err : Js.Error) : Exec unit :=
  logger_error ("Error while initializing DB: " ++ Js.message err)
    "items-dao-mongogb.getDbConnection()".

(** The world right after the module is loaded against server [s]. *)
Definition module_loaded (s : Server) : World :=
  snd (getDbConnection (mkWorld None s [] [])).

(** [utils.dbConnect()] is not among the sources: how its promise settles
    is an input. *)
Definition dbConnect_settled (r : Js.Error + Db) (w : World) : World :=
  match r with
  | inr database => snd (getDbConnection_then database w)
  | inl err => snd (getDbConnection_catch err w)
  end.

Definition findById_executor (id : string) : Exec Promise :=
  items <- db_collection "items" ;;
  oid <- new_ObjectID id ;;
  found <- findOne items (mkFilter "_id" (EqOid oid)) ;;
  match found with
  | inr (Some document) =>
      resolve (mkEnvelope (Json.stringify (Json.of_document document)) 200)
  | inr None =>
      let message := "No document matching id: " ++ id ++ " could be found!" in
      logger_error message "findById()" ;;;
      reject (Message message)
  | inl err =>
      logger_error ("Error occurred: " ++ Js.message err) "findById()" ;;;
      reject (Failure err)
  end.

(** [findById(id)], for an identifier given as a string, as a caller takes
    it from a request.  (On a number or on [null] the driver would mint a
    fresh identifier from its clock and counter; that is left out.) *)
Definition findById (id : string) : World -> Promise * World :=
  new_Promise (findById_executor id).

Definition findByDescription_executor (partialDescription : Js.Value) : Exec Promise :=
  items <- db_collection "items" ;;
  let search := ".*" ++ Js.ToString partialDescription ++ ".*" in
  found <- find_toArray items (mkFilter "itemDescription" (Regex search "i")) ;;
  match found with
  | inl err => reject (Failure err)
  | inr documents =>
      resolve (mkEnvelope (Json.stringify (Json.of_documents documents))
                 (if (0 <? length documents)%nat then 200 else 404))
  end.

Definition findByDescription (partialDescription : Js.Value)
    : World -> Promise * World :=
  new_Promise (findByDescription_executor partialDescription).

Definition findByUpc_executor (upc : Js.Value) : Exec Promise :=
  items <- db_collection "items" ;;
  found <- findOne items (mkFilter "upc" (EqStr (Js.ToString upc))) ;;
  match found with
  | inl err =>
      logger_error ("Error occurred: " ++ Js.message err) "findById()" ;;;
      reject (Failure err)
  | inr document =>
      resolve (mkEnvelope (Json.stringify (Json.of_result document))
                 (match document with Some _ => 200 | None => 404 end))
  end.

Definition findByUpc (upc : Js.Value) : World -> Promise * World :=
  new_Promise (findByUpc_executor upc).

(** ** A pattern engine for the server

    The server evaluates [$regex] with a Perl-compatible engine.  [Pcre]
    gives the semantics of a dialect of it: literal characters, [.], the
    quantifiers [*], [+] and [?] (greedy or lazy), alternation, groups and
    escaped metacharacters, with the caseless option [i].  A pattern or an
    option outside the dialect is left to the engine the dialect is
    completed with. *)

Module Pcre.

Inductive regex : Type :=
| Void
| Eps
| Lit (c : ascii)
| Dot
| Seq (a b : regex)
| Alt (a b : regex)
| Star (a : regex).

Definition chr_eq (caseless : bool) (x c : ascii) : bool :=
  if caseless then Ascii.eqb (to_lower x) (to_lower c) else Ascii.eqb x c.

Fixpoint nullable (r : regex) : bool :=
  match r with
  | Void => false
  | Eps => true
  | Lit _ => false
  | Dot => false
  | Seq a b => nullable a && nullable b
  | Alt a b => nullable a || nullable b
  | Star _ => true
  end.

Definition mk_seq (a b : regex) : regex :=
  match a with
  | Void => Void
  | Eps => b
  | _ => Seq a b
  end.

Definition mk_alt (a b : regex) : regex :=
  match a, b with
  | Void, _ => b
  | _, Void => a
  | _, _ => Alt a b
  end.

(** The residual of [r] after reading [c]. *)
Fixpoint der (caseless : bool) (c : ascii) (r : regex) : regex :=
  match r with
  | Void => Void
  | Eps => Void
  | Lit x => if chr_eq caseless x c then Eps else Void
  | Dot => if Ascii.eqb c newline then Void else Eps
  | Seq a b =>
      if nullable a
      then mk_alt (mk_seq (der caseless c a) b) (der caseless c b)
      else mk_seq (der caseless c a) b
  | Alt a b => mk_alt (der caseless c a) (der caseless c b)
  | Star a => mk_seq (der caseless c a) (Star a)
  end.

(** Some prefix of the subject matches [r]. *)
Fixpoint match_here (caseless : bool) (r : regex) (s : string) : bool :=
  nullable r ||
  match s with
  | EmptyString => false
  | String c s' => match_here caseless (der caseless c r) s'
  end.

(** Unanchored search: a match starts at some position of the subject. *)
Fixpoint search (caseless : bool) (r : regex) (s : string) : bool :=
  match_here caseless r s ||
  match s with
  | EmptyString => false
  | String _ s' => search caseless r s'
  end.

(** Outcome of reading a pattern: a regex of the dialect, a syntax error
    with the engine's message, or a construct outside the dialect. *)
Inductive Parsed (A : Type) : Type :=
| Ok (a : A)
| Invalid (msg : string)
| Foreign.
Arguments Ok {A} a.
Arguments Invalid {A} msg.
Arguments Foreign {A}.

Definition is_meta (c : ascii) : bool :=
  existsb (Ascii.eqb c)
    (list_ascii_of_string ("\^$.|?*+()[]{}")).

Definition is_quantifier (c : ascii) : bool :=
  existsb (Ascii.eqb c) (list_ascii_of_string "*+?").

(** A quantifier applied to an atom, then what may follow it: [?] makes it
    lazy, which matches the same subjects; a second [*] is refused by the
    engine; other suffixes are outside the dialect. *)
Definition quantified (r : regex) (s : string) : Parsed (regex * string) :=
  match s with
  | String q s' =>
      if is_quantifier q then
        let r' := if Ascii.eqb q "*" then Star r
                  else if Ascii.eqb q "+" then Seq r (Star r)
                  else Alt r Eps in
        match s' with
        | String q2 s'' =>
            if Ascii.eqb q2 "?" then
              match s'' with
              | String q3 _ => if is_quantifier q3 then Foreign else Ok (r', s'')
              | EmptyString => Ok (r', s'')
              end
            else if Ascii.eqb q2 "*" then Invalid "nothing to repeat"
            else if Ascii.eqb q2 "+" then Foreign
            else if Ascii.eqb q2 "{" then Foreign
            else Ok (r', s')
        | EmptyString => Ok (r', s')
        end
      else Ok (r, s)
  | EmptyString => Ok (r, s)
  end.

(** Recursive descent, [alt := seq ('|' seq)*], [seq := (atom quantifier?)*],
    [atom := '(' alt ')' | '.' | '\' meta | char].  [parse_alt] and
    [parse_seq] stop in front of a [)] or at the end of the pattern.  A
    parenthesis followed by a question mark or by an asterisk (an option,
    an assertion, a verb) is outside the dialect. *)
Fixpoint parse_alt (fuel : nat) (s : string) : Parsed (regex * string) :=
  match fuel with
  | O => Foreign
  | S fuel' =>
      match parse_seq fuel' s with
      | Ok (a, String c rest) =>
          if Ascii.eqb c "|" then
            match parse_alt fuel' rest with
            | Ok (b, rest') => Ok (Alt a b, rest')
            | other => other
            end
          else Ok (a, String c rest)
      | other => other
      end
  end
with parse_seq (fuel : nat) (s : string) : Parsed (regex * string) :=
  match fuel with
  | O => Foreign
  | S fuel' =>
      match s with
      | EmptyString => Ok (Eps, s)
      | String c _ =>
          if Ascii.eqb c "|" || Ascii.eqb c ")" then Ok (Eps, s)
          else
            match parse_atom fuel' s with
            | Ok (a, rest) =>
                match quantified a rest with
                | Ok (a', rest') =>
                    match parse_seq fuel' rest' with
                    | Ok (b, rest'') => Ok (Seq a' b, rest'')
                    | other => other
                    end
                | other => other
                end
            | other => other
            end
      end
  end
with parse_atom (fuel : nat) (s : string) : Parsed (regex * string) :=
  match fuel with
  | O => Foreign
  | S fuel' =>
      match s with
      | EmptyString => Foreign
      | String c rest =>
          if Ascii.eqb c "(" then
            match rest with
            | String "?" _ => Foreign
            | String "*" _ => Foreign
            | _ =>
                match parse_alt fuel' rest with
                | Ok (r, String ")" rest') => Ok (r, rest')
                | Ok (_, _) => Invalid "missing )"
                | other => other
                end
            end
          else if Ascii.eqb c "." then Ok (Dot, rest)
          else if Ascii.eqb c backslash then
            match rest with
            | String e rest' => if is_meta e then Ok (Lit e, rest') else Foreign
            | EmptyString => Invalid "\ at end of pattern"
            end
          else if is_quantifier c then Invalid "nothing to repeat"
          else if is_meta c then Foreign
          else if (128 <=? nat_of_ascii c)%nat then Foreign
          else Ok (Lit c, rest)
      end
  end.

Definition parse (pattern : string) : Parsed regex :=
  match parse_alt (3 * String.length pattern + 3) pattern with
  | Ok (r, EmptyString) => Ok r
  | Ok (_, String _ _) => Invalid "unmatched parentheses"
  | Invalid msg => Invalid msg
  | Foreign => Foreign
  end.

(** The error the server answers a query with when its pattern does not
    compile. *)
Definition invalid_regex (msg : string) : Js.Error :=
  Js.mkError "MongoError" ("Regular expression is invalid: " ++ msg).

Definition caseless_option (options : string) : option bool :=
  if String.eqb options "i" then Some true
  else if String.eqb options EmptyString then Some false
  else None.

(** The dialect: [None] where it does not speak. *)
Definition dialect (pattern options : string) : option (Js.Error + (string -> bool)) :=
  match caseless_option options with
  | None => None
  | Some caseless =>
      match parse pattern with
      | Ok r => Some (inr (search caseless r))
      | Invalid msg => Some (inl (invalid_regex msg))
      | Foreign => None
      end
  end.

(** An engine that follows the dialect and is [beyond] elsewhere. *)
Definition engine (beyond : RegexEngine) : RegexEngine :=
  fun pattern options =>
    match dialect pattern options with
    | Some verdict => verdict
    | None => beyond pattern options
    end.

(** The subjects a regex matches in full. *)
Inductive Matches (caseless : bool) : regex -> string -> Prop :=
| MEps : Matches caseless Eps EmptyString
| MLit c d : chr_eq caseless c d = true -> Matches caseless (Lit c) (String d EmptyString)
| MDot d : Ascii.eqb d newline = false -> Matches caseless Dot (String d EmptyString)
| MSeq a b s t : Matches caseless a s -> Matches caseless b t ->
                 Matches caseless (Seq a b) (s ++ t)
| MAltL a b s : Matches caseless a s -> Matches caseless (Alt a b) s
| MAltR a b s : Matches caseless b s -> Matches caseless (Alt a b) s
| MStar0 a : Matches caseless (Star a) EmptyString
| MStarS a s t : Matches caseless a s -> Matches caseless (Star a) t ->
                 Matches caseless (Star a) (s ++ t).

(** The literal characters of [s], then [tail]. *)
Fixpoint lits (s : string) (tail : regex) : regex :=
  match s with
  | EmptyString => tail
  | String c s' => Seq (Lit c) (lits s' tail)
  end.

(** The pattern [.*text.*] for a text read literally. *)
Definition around (s : string) : regex :=
  Seq (Star Dot) (lits s (Seq (Star Dot) Eps)).

(** A character that stands for itself in a pattern, and a text made of
    such characters. *)
Definition plain_char (c : ascii) : bool :=
  negb (is_meta c) && (nat_of_ascii c <? 128)%nat.

Fixpoint plain (s : string) : bool :=
  match s with
  | EmptyString => true
  | String c s' => plain_char c && plain s'
  end.

End Pcre.

(** ** Reading JSON text back

    The caller of a lookup deserialises [data].  [JsonText.parse] reads a
    JSON text into its tree: integers for numbers, characters below 256 in
    strings; a text with a fraction, an exponent or a higher [\u] escape is
    not read. *)

Module JsonText.

Import Json.

Definition is_ws (c : ascii) : bool :=
  let n := nat_of_ascii c in
  ((n =? 32) || (n =? 9) || (n =? 10) || (n =? 13))%nat.

Fixpoint skip_ws (s : string) : string :=
  match s with
  | String c s' => if is_ws c then skip_ws s' else s
  | EmptyString => s
  end.

Definition is_num_char (c : ascii) : bool :=
  let n := nat_of_ascii c in
  ((n =? 45) || ((48 <=? n) && (n <=? 57)))%nat.

(** The longest prefix of number characters, and what follows it. *)
Fixpoint span_num (s : string) : string * string :=
  match s with
  | String c s' =>
      if is_num_char c
      then let (tok, rest) := span_num s' in (String c tok, rest)
      else (EmptyString, s)
  | EmptyString => (EmptyString, s)
  end.

(** An integer numeral: the decimal form of an integer, or [-0]. *)
Definition read_number (s : string) : option (Z * string) :=
  let (tok, rest) := span_num s in
  match rest with
  | String c _ =>
      if Ascii.eqb c "." || Ascii.eqb c "e" || Ascii.eqb c "E" then None
      else
        match NilZero.int_of_string tok with
        | Some d =>
            let z := Z.of_int d in
            if String.eqb (Js.decimal z) tok || String.eqb tok "-0"
            then Some (z, rest) else None
        | None => None
        end
  | EmptyString =>
      match NilZero.int_of_string tok with
      | Some d =>
          let z := Z.of_int d in
          if String.eqb (Js.decimal z) tok || String.eqb tok "-0"
          then Some (z, rest) else None
      | None => None
      end
  end.

Definition unescape (e : ascii) : option ascii :=
  if Ascii.eqb e dquote then Some dquote
  else if Ascii.eqb e backslash then Some backslash
  else if Ascii.eqb e "/" then Some "/"%char
  else if Ascii.eqb e "b" then Some (ascii_of_nat 8)
  else if Ascii.eqb e "f" then Some (ascii_of_nat 12)
  else if Ascii.eqb e "n" then Some (ascii_of_nat 10)
  else if Ascii.eqb e "r" then Some (ascii_of_nat 13)
  else if Ascii.eqb e "t" then Some (ascii_of_nat 9)
  else None.

Definition unicode_escape (h1 h2 h3 h4 : ascii) : option ascii :=
  match ObjectID.hex_value h1, ObjectID.hex_value h2,
        ObjectID.hex_value h3, ObjectID.hex_value h4 with
  | Some a, Some b, Some c, Some d =>
      if ((a =? 0) && (b =? 0))%nat then Some (ascii_of_nat (16 * c + d)) else None
  | _, _, _, _ => None
  end.

Definition push (c : option ascii) (r : option (string * string))
    : option (string * string) :=
  match c, r with
  | Some c, Some (body, rest) => Some (String c body, rest)
  | _, _ => None
  end.

(** The characters of a string literal after its opening quote, up to and
    over the closing quote. *)
Fixpoint read_string (s : string) : option (string * string) :=
  match s with
  | EmptyString => None
  | String c s' =>
      if Ascii.eqb c dquote then Some (EmptyString, s')
      else if Ascii.eqb c backslash then
        match s' with
        | String e s'' =>
            if Ascii.eqb e "u" then
              match s'' with
              | String h1 (String h2 (String h3 (String h4 s3))) =>
                  push (unicode_escape h1 h2 h3 h4) (read_string s3)
              | _ => None
              end
            else push (unescape e) (read_string s'')
        | EmptyString => None
        end
      else if (nat_of_ascii c <? 32)%nat then None
      else push (Some c) (read_string s')
  end.

(** [expect word s]: [s] without its prefix [word]. *)
Fixpoint expect (word s : string) : option string :=
  match word, s with
  | EmptyString, _ => Some s
  | String a word', String b s' => if Ascii.eqb a b then expect word' s' else None
  | String _ _, EmptyString => None
  end.

(** [parse_value] reads one value; [parse_elements] and [parse_members]
    read what follows a value inside an array and inside an object. *)
Fixpoint parse_value (fuel : nat) (s : string) : option (t * string) :=
  match fuel with
  | O => None
  | S fuel' =>
      match skip_ws s with
      | EmptyString => None
      | String c rest =>
          if Ascii.eqb c "n" then option_map (pair Null) (expect "ull" rest)
          else if Ascii.eqb c "t" then option_map (pair (Bool true)) (expect "rue" rest)
          else if Ascii.eqb c "f" then option_map (pair (Bool false)) (expect "alse" rest)
          else if Ascii.eqb c dquote then
            match read_string rest with
            | Some (body, rest') => Some (Str body, rest')
            | None => None
            end
          else if Ascii.eqb c "[" then
            match skip_ws rest with
            | String c' rest' =>
                if Ascii.eqb c' "]" then Some (Array [], rest')
                else
                  match parse_value fuel' rest with
                  | Some (x, rest'') =>
                      match parse_elements fuel' rest'' with
                      | Some (xs, rest3) => Some (Array (x :: xs), rest3)
                      | None => None
                      end
                  | None => None
                  end
            | EmptyString => None
            end
          else if Ascii.eqb c "{" then
            match skip_ws rest with
            | String c' rest' =>
                if Ascii.eqb c' "}" then Some (Object [], rest')
                else
                  match parse_member fuel' rest with
                  | Some (kx, rest'') =>
                      match parse_members fuel' rest'' with
                      | Some (kxs, rest3) => Some (Object (kx :: kxs), rest3)
                      | None => None
                      end
                  | None => None
                  end
            | EmptyString => None
            end
          else
            match read_number (String c rest) with
            | Some (z, rest') => Some (Number z, rest')
            | None => None
            end
      end
  end
with parse_elements (fuel : nat) (s : string) : option (list t * string) :=
  match fuel with
  | O => None
  | S fuel' =>
      match skip_ws s with
      | String c rest =>
          if Ascii.eqb c "]" then Some ([], rest)
          else if Ascii.eqb c "," then
            match parse_value fuel' rest with
            | Some (x, rest') =>
                match parse_elements fuel' rest' with
                | Some (xs, rest'') => Some (x :: xs, rest'')
                | None => None
                end
            | None => None
            end
          else None
      | EmptyString => None
      end
  end
with parse_member (fuel : nat) (s : string) : option ((string * t) * string) :=
  match fuel with
  | O => None
  | S fuel' =>
      match skip_ws s with
      | String c rest =>
          if Ascii.eqb c dquote then
            match read_string rest with
            | Some (k, rest') =>
                match skip_ws rest' with
                | String c' rest'' =>
                    if Ascii.eqb c' ":" then
                      match parse_value fuel' rest'' with
                      | Some (x, rest3) => Some ((k, x), rest3)
                      | None => None
                      end
                    else None
                | EmptyString => None
                end
            | None => None
            end
          else None
      | EmptyString => None
      end
  end
with parse_members (fuel : nat) (s : string) : option (list (string * t) * string) :=
  match fuel with
  | O => None
  | S fuel' =>
      match skip_ws s with
      | String c rest =>
          if Ascii.eqb c "}" then Some ([], rest)
          else if Ascii.eqb c "," then
            match parse_member fuel' rest with
            | Some (kx, rest') =>
                match parse_members fuel' rest' with
                | Some (kxs, rest'') => Some (kx :: kxs, rest'')
                | None => None
                end
            | None => None
            end
          else None
      | EmptyString => None
      end
  end.

(** [JSON.parse]: one value, with nothing but white space around it. *)
Definition parse (s : string) : option t :=
  match parse_value (2 * String.length s + 2) s with
  | Some (j, rest) =>
      match skip_ws rest with
      | EmptyString => Some j
      | String _ _ => None
      end
  | None => None
  end.

(** Property access on a parsed value: the last member of that name. *)
Fixpoint member (k : string) (l : list (string * t)) : option t :=
  match l with
  | [] => None
  | (k', x) :: l' =>
      match member k l' with
      | Some y => Some y
      | None => if String.eqb k k' then Some x else None
      end
  end.

Definition property (j : t) (k : string) : option t :=
  match j with
  | Object l => member k l
  | _ => None
  end.

(** Every character of [s] may occur in an integer numeral. *)
Fixpoint all_num (s : string) : bool :=
  match s with
  | EmptyString => true
  | String c s' => is_num_char c && all_num s'
  end.

(** What may follow a value inside a compact text: nothing, or one of
    [,], []] and [}]. *)
Definition delimited (rest : string) : bool :=
  match rest with
  | EmptyString => true
  | String c _ => Ascii.eqb c "," || Ascii.eqb c "]" || Ascii.eqb c "}"
  end.

(** The characters a value can start with. *)
Definition starts_value (c : ascii) : bool :=
  is_num_char c ||
  existsb (Ascii.eqb c) (list_ascii_of_string "ntf[{") || Ascii.eqb c dquote.

(** The reader gets [j] back from its text, whatever delimited text
    follows, once it is given the depth [j] needs. *)
Definition reads (j : t) : Prop :=
  forall fuel rest, weight j <= fuel -> delimited rest = true ->
    parse_value fuel (stringify j ++ rest) = Some (j, rest).

End JsonText.

(** ** src/models/brand-schema.js *)

Module Mongoose.

Inductive SchemaType : Type := ObjectId | StringType.

(** The options of one path: [{ type, required }]. *)
Record PathOptions : Type := mkPath { type : SchemaType; required : bool }.

Definition Schema : Type := list (string * PathOptions).

(** A candidate document, its fields already cast to their schema types. *)
Definition Candidate : Type := list (string * Bson.Value).

(** The value has the type of the path. *)
Definition has_type (ty : SchemaType) (v : Bson.Value) : bool :=
  match ty, v with
  | ObjectId, Bson.Oid _ => true
  | StringType, Bson.Str _ => true
  | _, _ => false
  end.

(** The [required] validator: the value is there; a string is also not
    empty. *)
Definition checkRequired (v : Bson.Value) : bool :=
  match v with
  | Bson.Str s => negb (String.eqb s EmptyString)
  | _ => true
  end.

(** Validation of one path: an absent or [null] value passes unless the
    path is required; a value that is there has the path's type and
    passes the [required] validator when the path has it. *)
Definition validate_path (doc : Candidate) (p : string * PathOptions) : bool :=
  match Bson.assoc (fst p) doc with
  | None => negb (required (snd p))
  | Some Bson.Null => negb (required (snd p))
  | Some v =>
      has_type (type (snd p)) v &&
      (if required (snd p) then checkRequired v else true)
  end.

(** The document passes validation on every path of the schema. *)
Definition validate (schema : Schema) (doc : Candidate) : bool :=
  forallb (validate_path doc) schema.

(** The field is there: it holds a value other than [null]. *)
Definition present (doc : Candidate) (k : string) : Prop :=
  exists v, Bson.assoc k doc = Some v /\ v <> Bson.Null.

Definition without (k : string) (doc : Candidate) : Candidate :=
  filter (fun kv => negb (String.eqb k (fst kv))) doc.

End Mongoose.

Definition brandSchema : Mongoose.Schema :=
  [ ("_id", Mongoose.mkPath Mongoose.ObjectId true);
    ("id", Mongoose.mkPath Mongoose.ObjectId true);
    ("description", Mongoose.mkPath Mongoose.StringType true);
    ("manufacturer", Mongoose.mkPath Mongoose.StringType false);
    ("address", Mongoose.mkPath Mongoose.StringType false);
    ("website", Mongoose.mkPath Mongoose.StringType false) ].

(** ** Vocabulary of the properties *)

(** The collection the three lookups read. *)
Definition items (w : World) : list Bson.Document :=
  documents (mongod w) (mkCollection "items").

(** The shared handle has been initialised. *)
Definition ready (w : World) : Prop := exists database, db w = Some database.

(** The error the driver reports for a query with filter [f], if any: the
    outage while it lasts, else the error of a pattern that does not
    compile. *)
Definition reported (s : Server) (f : Filter) : option Js.Error :=
  match outage s with
  | Some e => Some e
  | None =>
      match compile s f with
      | inl e => Some e
      | inr _ => None
      end
  end.

(** The documents of [docs] the server selects under filter [f]. *)
Definition selected (s : Server) (f : Filter) (docs : list Bson.Document)
    : list Bson.Document :=
  match compile s f with
  | inr p => List.filter p docs
  | inl _ => []
  end.

(** The filters the lookups build. *)
Definition by_id (oid : ObjectID.t) : Filter := mkFilter "_id" (EqOid oid).

Definition by_upc (upc : Js.Value) : Filter :=
  mkFilter "upc" (EqStr (Js.ToString upc)).

Definition by_description (partialDescription : Js.Value) : Filter :=
  mkFilter "itemDescription"
    (Regex (".*" ++ Js.ToString partialDescription ++ ".*") "i").

(** Document [d] is the one identifier string [id] designates. *)
Definition matches_id (id : string) (d : Bson.Document) : bool :=
  match ObjectID.new id with
  | inr oid => ObjectID.eqb (Bson._id d) oid
  | inl _ => false
  end.

(** The [upc] field of [d] is exactly the string [u]. *)
Definition has_upc (u : string) (d : Bson.Document) : bool :=
  match Bson.get d "upc" with
  | Some (Bson.Str v) => String.eqb v u
  | _ => false
  end.

(** The description of [d] is a string containing [s], letter case apart. *)
Definition describes (s : string) (d : Bson.Document) : bool :=
  match Bson.get d "itemDescription" with
  | Some (Bson.Str v) => contains_ci s v
  | _ => false
  end.

(** A stored item as the store keeps it: a twelve-byte identifier, and no
    second [_id] among its fields. *)
Definition valid_item (d : Bson.Document) : Prop :=
  ObjectID.well_formed (Bson._id d) /\ Bson.assoc "_id" (Bson.fields d) = None.

(** The store's index on [_id]: no two documents share an identifier. *)
Definition unique_ids (docs : list Bson.Document) : Prop :=
  NoDup (map (fun d => ObjectID.id (Bson._id d)) docs).

(** The message [findById] rejects with on a miss. *)
Definition not_found_message (id : string) : string :=
  "No document matching id: " ++ id ++ " could be found!".

(** *** A small catalogue *)

Definition red_widget : Bson.Document :=
  Bson.mkDocument (ObjectID.mk "catalog-0001")
    [("itemDescription", Bson.Str "Red Widget"); ("upc", Bson.Str "00012345")].

Definition salt_pepper : Bson.Document :=
  Bson.mkDocument (ObjectID.mk "catalog-0002")
    [("itemDescription", Bson.Str "Salt+Pepper Set"); ("upc", Bson.Str "0001234")].

Definition catalogue (engine : RegexEngine) (failure : option Js.Error) : Server :=
  mkServer [("items", [red_widget; salt_pepper])] engine failure.

(** The world once [utils.dbConnect()] has resolved. *)
Definition connected (s : Server) : World :=
  dbConnect_settled (inr (mkDb "catalog")) (module_loaded s).

(** A completion of the dialect that refuses every other pattern; it only
    serves to close the examples, none of which reaches it. *)
Definition dialect_only : RegexEngine :=
  Pcre.engine (fun _ _ => inl (Pcre.invalid_regex "not in the dialect")).

Definition network_down : Js.Error :=
  Js.mkError "MongoNetworkError" "connection 0 to localhost:27017 closed".

(** On one pattern the engine gives the dialect's verdict: it compiles the
    pattern to a search that answers like the dialect's on every subject,
    or it refuses the pattern as the dialect does (with an error of its
    own).  Nothing is asked of the engine on other patterns. *)
Definition agrees_with_dialect (engine : RegexEngine) (pattern options : string)
    : Prop :=
  match Pcre.dialect pattern options, engine pattern options with
  | Some (inr by_dialect), inr found => forall subject, found subject = by_dialect subject
  | Some (inl _), inl _ => True
  | _, _ => False
  end.

(** The pattern [findByDescription] sends for a text. *)
Definition pattern_of (text : string) : string := ".*" ++ text ++ ".*".

(** A number JavaScript prints in plain decimal notation: an integer below
    10^21 in magnitude.  The other values print as [Js.ToString] has it. *)
Definition prints_in_decimal (v : Js.Value) : Prop :=
  match v with
  | Js.JsNumber z => (Z.abs z < 10 ^ 21)%Z
  | _ => True
  end.

(** *** Callers *)

(** One call a caller makes to the DAO. *)
Inductive Call : Type :=
| CallFindById (id : string)
| CallFindByDescription (partialDescription : Js.Value)
| CallFindByUpc (upc : Js.Value).

Definition call (c : Call) : World -> Promise * World :=
  match c with
  | CallFindById id => findById id
  | CallFindByDescription v => findByDescription v
  | CallFindByUpc v => findByUpc v
  end.

(** A caller issuing lookups one after the other: the promises in the
    order of the calls, and the world left behind. *)
Fixpoint call_all (cs : list Call) (w : World) : list Promise * World :=
  match cs with
  | [] => ([], w)
  | c :: cs' =>
      let (p, w1) := call c w in
      let (ps, w2) := call_all cs' w1 in
      (p :: ps, w2)
  end.

(** The description of [d] is there and is a string. *)
Definition described (d : Bson.Document) : bool :=
  match Bson.get d "itemDescription" with
  | Some (Bson.Str _) => true
  | _ => false
  end.

(** The description of [d] is a string with a character other than a line
    feed in it. *)
Fixpoint has_visible (s : string) : bool :=
  match s with
  | EmptyString => false
  | String c s' => negb (Ascii.eqb c newline) || has_visible s'
  end.

Definition visibly_described (d : Bson.Document) : bool :=
  match Bson.get d "itemDescription" with
  | Some (Bson.Str v) => has_visible v
  | _ => false
  end.

(** Upper-case form of a hexadecimal text. *)
Definition to_upper (c : ascii) : ascii :=
  let n := nat_of_ascii c in
  if ((97 <=? n) && (n <=? 122))%nat then ascii_of_nat (n - 32) else c.

Fixpoint uppercase (s : string) : string :=
  match s with
  | EmptyString => EmptyString
  | String c s' => String (to_upper c) (uppercase s')
  end.

(** [l] is a prefix of [l']. *)
Definition extends {A} (l l' : list A) : Prop := exists more, l' = (l ++ more)%list.

(** A numeral or code written with a zero in front of further characters. *)
Definition leading_zero (u : string) : bool :=
  match u with
  | String c (String _ _) => Ascii.eqb c "0"
  | _ => false
  end.

(** A catalogue of one item, whose UPC starts with zeros. *)
Definition zero_padded : Server :=
  mkServer [("items", [red_widget])] dialect_only None.

(** * Properties *)

(** ** How each lookup runs *)

Section Runs.

Variable w : World.

(** Without a handle every executor throws on its first line, and the
    promise turns the exception into a rejection. *)
Lemma no_handle_findById (id : string) :
  db w = None ->
  findById_executor id w = (Throw (Js.undefined_property "collection"), w) /\
  findById id w = (Rejected (Failure (Js.undefined_property "collection")), w).
Proof.
  intros H. unfold findById, new_Promise, findById_executor, bind, db_collection.
  rewrite H. split; reflexivity.
Qed.

Lemma no_handle_findByDescription (s : Js.Value) :
  db w = None ->
  findByDescription_executor s w = (Throw (Js.undefined_property "collection"), w) /\
  findByDescription s w = (Rejected (Failure (Js.undefined_property "collection")), w).
Proof.
  intros H.
  unfold findByDescription, new_Promise, findByDescription_executor, bind, db_collection.
  rewrite H. split; reflexivity.
Qed.

Lemma no_handle_findByUpc (upc : Js.Value) :
  db w = None ->
  findByUpc_executor upc w = (Throw (Js.undefined_property "collection"), w) /\
  findByUpc upc w = (Rejected (Failure (Js.undefined_property "collection")), w).
Proof.
  intros H. unfold findByUpc, new_Promise, findByUpc_executor, bind, db_collection.
  rewrite H. split; reflexivity.
Qed.

(** With a handle, an identifier the driver cannot read is thrown back
    before any request is made. *)
Lemma findById_bad_id (id : string) (e : Js.Error) :
  ready w -> ObjectID.new id = inl e ->
  findById id w = (Rejected (Failure e), w).
Proof.
  intros [h H] E.
  unfold findById, new_Promise, findById_executor, bind, db_collection, new_ObjectID.
  rewrite H, E. reflexivity.
Qed.

(** With a handle and a readable identifier, one [findOne] is sent and its
    outcome decides the promise. *)
Lemma findById_run (id : string) (oid : ObjectID.t) :
  ready w -> ObjectID.new id = inr oid ->
  findById id w =
    let w1 := send (FindOne (mkCollection "items") (by_id oid)) w in
    match answer (mongod w) (by_id oid) (fun p => List.find p (items w)) with
    | inr (Some document) =>
        (Resolved (mkEnvelope (Json.stringify (Json.of_document document)) 200), w1)
    | inr None =>
        (Rejected (Message (not_found_message id)),
         snd (logger_error (not_found_message id) "findById()" w1))
    | inl err =>
        (Rejected (Failure err),
         snd (logger_error ("Error occurred: " ++ Js.message err) "findById()" w1))
    end.
Proof.
  intros [h H] E.
  unfold findById, new_Promise, findById_executor, bind, db_collection, new_ObjectID.
  rewrite H, E. unfold ret, findOne, by_id, items. cbv beta iota zeta.
  match goal with
  | |- context [answer ?s ?f ?sel] => destruct (answer s f sel) as [err|[d|]]
  end; reflexivity.
Qed.

Lemma findByDescription_run (s : Js.Value) :
  ready w ->
  findByDescription s w =
    let w1 := send (Find (mkCollection "items") (by_description s)) w in
    match answer (mongod w) (by_description s) (fun p => List.filter p (items w)) with
    | inl err => (Rejected (Failure err), w1)
    | inr documents =>
        (Resolved (mkEnvelope (Json.stringify (Json.of_documents documents))
                     (if (0 <? length documents)%nat then 200 else 404)), w1)
    end.
Proof.
  intros [h H].
  unfold findByDescription, new_Promise, findByDescription_executor, bind, db_collection.
  rewrite H. unfold find_toArray, by_description, items. cbv beta iota zeta.
  match goal with
  | |- context [answer ?s ?f ?sel] => destruct (answer s f sel) as [err|ds]
  end; reflexivity.
Qed.

Lemma findByUpc_run (upc : Js.Value) :
  ready w ->
  findByUpc upc w =
    let w1 := send (FindOne (mkCollection "items") (by_upc upc)) w in
    match answer (mongod w) (by_upc upc) (fun p => List.find p (items w)) with
    | inl err =>
        (Rejected (Failure err),
         snd (logger_error ("Error occurred: " ++ Js.message err) "findById()" w1))
    | inr document =>
        (Resolved (mkEnvelope (Json.stringify (Json.of_result document))
                     (match document with Some _ => 200 | None => 404 end)), w1)
    end.
Proof.
  intros [h H].
  unfold findByUpc, new_Promise, findByUpc_executor, bind, db_collection.
  rewrite H. unfold findOne, by_upc, items. cbv beta iota zeta.
  match goal with
  | |- context [answer ?s ?f ?sel] => destruct (answer s f sel) as [err|[d|]]
  end; reflexivity.
Qed.

End Runs.

(** ** The startup race *)

Lemma module_loaded_undefined (s : Server) : db (module_loaded s) = None.
Proof. reflexivity. Qed.

Lemma failed_connect_undefined (err : Js.Error) (w : World) :
  db w = None -> db (dbConnect_settled (inl err) w) = None.
Proof. intros H. exact H. Qed.

(** C7.  A lookup that runs before the shared handle is initialised (the
    module variable [db] is still [undefined]) fails cleanly: the executor
    throws the [TypeError] of reading [collection] of [undefined], and the
    promise the caller holds is rejected with that error; nothing is thrown
    to the caller, no request is sent and the world is as before.  This
    holds for [findById], [findByDescription] and [findByUpc]. *)
Theorem lookup_before_connect_rejects (w : World) (id : string) (v : Js.Value) :
  db w = None ->
  let null_handle := Js.undefined_property "collection" in
  (findById_executor id w = (Throw null_handle, w) /\
   findById id w = (Rejected (Failure null_handle), w)) /\
  (findByDescription_executor v w = (Throw null_handle, w) /\
   findByDescription v w = (Rejected (Failure null_handle), w)) /\
  (findByUpc_executor v w = (Throw null_handle, w) /\
   findByUpc v w = (Rejected (Failure null_handle), w)).
Proof.
  intros H null_handle. repeat split.
  - apply no_handle_findById, H.
  - apply no_handle_findById, H.
  - apply no_handle_findByDescription, H.
  - apply no_handle_findByDescription, H.
  - apply no_handle_findByUpc, H.
  - apply no_handle_findByUpc, H.
Qed.

(** The race itself: the module has just been loaded and [dbConnect] has not
    settled yet. *)
Lemma lookup_before_connect_rejects_witness :
  db (module_loaded (catalogue dialect_only None)) = None /\
  fst (findById "636174616c6f672d30303031" (module_loaded (catalogue dialect_only None)))
    = Rejected (Failure (Js.undefined_property "collection")).
Proof.
  split; [reflexivity|].
  pose proof (lookup_before_connect_rejects
                (module_loaded (catalogue dialect_only None))
                "636174616c6f672d30303031" (Js.JsString "widget") eq_refl) as H.
  destruct H as [[_ H] _]. rewrite H. reflexivity.
Defined.

(** ** The lookups only read *)

Lemma findById_frame (id : string) (w : World) :
  mongod (snd (findById id w)) = mongod w /\ db (snd (findById id w)) = db w.
Proof.
  destruct (db w) as [h|] eqn:H.
  - destruct (ObjectID.new id) as [e|oid] eqn:E.
    + rewrite (findById_bad_id w id e);
        [split; [reflexivity | exact H] | exists h; exact H | exact E].
    + rewrite (findById_run w id oid); [ | exists h; exact H | exact E].
      cbv zeta.
      destruct (answer (mongod w) (by_id oid) _) as [err|[d|]];
        (split; [reflexivity | exact H]).
  - destruct (no_handle_findById w id H) as [_ R]. rewrite R. split; [reflexivity | exact H].
Qed.

Lemma findByDescription_frame (s : Js.Value) (w : World) :
  mongod (snd (findByDescription s w)) = mongod w /\
  db (snd (findByDescription s w)) = db w.
Proof.
  destruct (db w) as [h|] eqn:H.
  - rewrite (findByDescription_run w s); [ | exists h; exact H].
    cbv zeta.
    destruct (answer (mongod w) (by_description s) _) as [err|ds];
      (split; [reflexivity | exact H]).
  - destruct (no_handle_findByDescription w s H) as [_ R]. rewrite R. split; [reflexivity | exact H].
Qed.

Lemma findByUpc_frame (upc : Js.Value) (w : World) :
  mongod (snd (findByUpc upc w)) = mongod w /\ db (snd (findByUpc upc w)) = db w.
Proof.
  destruct (db w) as [h|] eqn:H.
  - rewrite (findByUpc_run w upc); [ | exists h; exact H].
    cbv zeta.
    destruct (answer (mongod w) (by_upc upc) _) as [err|[d|]];
      (split; [reflexivity | exact H]).
  - destruct (no_handle_findByUpc w upc H) as [_ R]. rewrite R. split; [reflexivity | exact H].
Qed.

(** C8.  The three lookups are read-only: for every input and every world,
    after [findById], [findByDescription] or [findByUpc] the server (its
    collections with the item collection among them, its pattern engine and
    its outage state) is the one before the call, and so is the shared
    handle. *)
Theorem lookups_are_read_only (w : World) (id : string) (v : Js.Value) :
  (mongod (snd (findById id w)) = mongod w /\
   items (snd (findById id w)) = items w /\
   db (snd (findById id w)) = db w) /\
  (mongod (snd (findByDescription v w)) = mongod w /\
   items (snd (findByDescription v w)) = items w /\
   db (snd (findByDescription v w)) = db w) /\
  (mongod (snd (findByUpc v w)) = mongod w /\
   items (snd (findByUpc v w)) = items w /\
   db (snd (findByUpc v w)) = db w).
Proof.
  unfold items.
  destruct (findById_frame id w) as [A1 A2].
  destruct (findByDescription_frame v w) as [B1 B2].
  destruct (findByUpc_frame v w) as [C1 C2].
  rewrite A1, B1, C1. repeat split; assumption.
Qed.

(** ** Failures of the store *)

Lemma answer_by_id (s : Server) (oid : ObjectID.t) {A}
    (select : (Bson.Document -> bool) -> A) :
  answer s (by_id oid) select =
    match outage s with
    | Some e => inl e
    | None => inr (select (fun d => ObjectID.eqb (Bson._id d) oid))
    end.
Proof. unfold answer. destruct (outage s); reflexivity. Qed.

Lemma answer_by_upc (s : Server) (upc : Js.Value) {A}
    (select : (Bson.Document -> bool) -> A) :
  answer s (by_upc upc) select =
    match outage s with
    | Some e => inl e
    | None => inr (select (has_upc (Js.ToString upc)))
    end.
Proof. unfold answer. destruct (outage s); reflexivity. Qed.

Lemma answer_failure (s : Server) (f : Filter) (e : Js.Error) {A}
    (select : (Bson.Document -> bool) -> A) :
  reported s f = Some e -> answer s f select = inl e.
Proof.
  unfold reported, answer. destruct (outage s) as [e'|].
  - intros H. inversion H. reflexivity.
  - destruct (compile s f) as [e'|p]; intros H; inversion H. reflexivity.
Qed.

Lemma answer_success (s : Server) (f : Filter) (docs : list Bson.Document) :
  reported s f = None ->
  answer s f (fun p => List.filter p docs) = inr (selected s f docs).
Proof.
  unfold reported, answer, selected. destruct (outage s) as [e'|]; [discriminate|].
  destruct (compile s f) as [e'|p]; [discriminate|]. reflexivity.
Qed.

(** C6.  When the driver reports a failure [e] for the query of a lookup,
    the promise of [findById], [findByDescription] or [findByUpc] is
    rejected with that same value [e]; exactly one request has gone on the
    wire (no retry) and nothing is substituted for the result (no
    recovery).  An identifier the driver refuses to read is rejected with
    the driver's error in the same way, before any request. *)
Theorem store_failure_is_forwarded (w : World) (e : Js.Error) :
  ready w ->
  (forall id oid,
      ObjectID.new id = inr oid ->
      reported (mongod w) (by_id oid) = Some e ->
      fst (findById id w) = Rejected (Failure e) /\
      wire (snd (findById id w))
        = (wire w ++ [FindOne (mkCollection "items") (by_id oid)])%list) /\
  (forall id,
      ObjectID.new id = inl e ->
      fst (findById id w) = Rejected (Failure e) /\
      wire (snd (findById id w)) = wire w) /\
  (forall v,
      reported (mongod w) (by_description v) = Some e ->
      fst (findByDescription v w) = Rejected (Failure e) /\
      wire (snd (findByDescription v w))
        = (wire w ++ [Find (mkCollection "items") (by_description v)])%list) /\
  (forall v,
      reported (mongod w) (by_upc v) = Some e ->
      fst (findByUpc v w) = Rejected (Failure e) /\
      wire (snd (findByUpc v w))
        = (wire w ++ [FindOne (mkCollection "items") (by_upc v)])%list).
Proof.
  intros R. split; [|split; [|split]].
  - intros id oid E F.
    rewrite (findById_run w id oid R E). cbv zeta.
    rewrite (answer_failure _ _ e _ F). split; reflexivity.
  - intros id E. rewrite (findById_bad_id w id e R E). split; reflexivity.
  - intros v F.
    rewrite (findByDescription_run w v R). cbv zeta.
    rewrite (answer_failure _ _ e _ F). split; reflexivity.
  - intros v F.
    rewrite (findByUpc_run w v R). cbv zeta.
    rewrite (answer_failure _ _ e _ F). split; reflexivity.
Qed.

(** The connection is lost while the catalogue is queried. *)
Lemma store_failure_is_forwarded_witness :
  ready (connected (catalogue dialect_only (Some network_down))) /\
  fst (findById "636174616c6f672d30303031"
         (connected (catalogue dialect_only (Some network_down))))
    = Rejected (Failure network_down) /\
  fst (findByDescription (Js.JsString "widget")
         (connected (catalogue dialect_only (Some network_down))))
    = Rejected (Failure network_down) /\
  fst (findByUpc (Js.JsString "00012345")
         (connected (catalogue dialect_only (Some network_down))))
    = Rejected (Failure network_down).
Proof.
  assert (R : ready (connected (catalogue dialect_only (Some network_down))))
    by (exists (mkDb "catalog"); reflexivity).
  destruct (store_failure_is_forwarded _ network_down R) as (A & _ & B & C).
  split; [exact R|]. split; [|split].
  - apply (A "636174616c6f672d30303031" (ObjectID.mk "catalog-0001")); reflexivity.
  - apply (B (Js.JsString "widget")); reflexivity.
  - apply (C (Js.JsString "00012345")); reflexivity.
Defined.

(** ** Lookup by description: the envelope *)

(** C5.  With the handle initialised and no failure reported by the store
    for the query, [findByDescription] always resolves, whatever the number
    of matches: the envelope carries the serialisation of the array of
    selected documents; its status is 200 exactly when that array is not
    empty and 404 otherwise; with no match the data is the text of the
    empty array. *)
Theorem findByDescription_resolves (w : World) (v : Js.Value) :
  ready w ->
  reported (mongod w) (by_description v) = None ->
  let documents := selected (mongod w) (by_description v) (items w) in
  exists env,
    fst (findByDescription v w) = Resolved env /\
    data env = Json.stringify (Json.of_documents documents) /\
    (statusCode env = 200%Z <-> documents <> []) /\
    (documents = [] -> data env = "[]" /\ statusCode env = 404%Z).
Proof.
  intros R H documents.
  rewrite (findByDescription_run w v R). cbv zeta.
  rewrite (answer_success _ _ _ H). fold documents.
  eexists. split; [reflexivity|]. cbn [data statusCode].
  split; [reflexivity|]. split.
  - destruct documents; simpl; split; intros; congruence.
  - intros E. rewrite E. split; reflexivity.
Qed.

(** Nothing in the catalogue is described as a gadget. *)
Lemma findByDescription_resolves_witness :
  ready (connected (catalogue dialect_only None)) /\
  exists env,
    fst (findByDescription (Js.JsString "gadget")
           (connected (catalogue dialect_only None))) = Resolved env /\
    data env = "[]" /\ statusCode env = 404%Z.
Proof.
  assert (R : ready (connected (catalogue dialect_only None)))
    by (exists (mkDb "catalog"); reflexivity).
  split; [exact R|].
  destruct (findByDescription_resolves _ (Js.JsString "gadget") R eq_refl)
    as (env & E & _ & _ & Z).
  exists env. split; [exact E|]. apply Z. reflexivity.
Defined.

(** ** Lookup by UPC *)

(** C1.  With the handle initialised and the store answering,
    [findByUpc(code)] resolves in every case.  The result [r] it serialises
    is a stored document whose [upc] field is exactly the string form of
    [code] (so a document whose UPC merely contains that string is not
    matched), with status 200; or it is [null], with status 404, and then
    no stored document has that UPC.  A miss is a resolved promise, not a
    rejection. *)
Theorem findByUpc_exact (w : World) (code : Js.Value) :
  ready w ->
  outage (mongod w) = None ->
  exists r,
    fst (findByUpc code w) =
      Resolved (mkEnvelope (Json.stringify (Json.of_result r))
                  (match r with Some _ => 200 | None => 404 end)) /\
    match r with
    | Some d =>
        In d (items w) /\ Bson.get d "upc" = Some (Bson.Str (Js.ToString code))
    | None =>
        Json.stringify (Json.of_result r) = "null" /\
        forall d, In d (items w) ->
                  Bson.get d "upc" <> Some (Bson.Str (Js.ToString code))
    end.
Proof.
  intros R O.
  rewrite (findByUpc_run w code R). cbv zeta.
  rewrite answer_by_upc, O.
  exists (List.find (has_upc (Js.ToString code)) (items w)).
  split; [reflexivity|].
  destruct (List.find _ (items w)) as [d|] eqn:F.
  - apply List.find_some in F. destruct F as [I P]. split; [exact I|].
    unfold has_upc in P.
    destruct (Bson.get d "upc") as [[| | |u|]|]; try discriminate.
    apply String.eqb_eq in P. rewrite P. reflexivity.
  - split; [reflexivity|]. intros d I E.
    pose proof (List.find_none _ _ F d I) as N.
    unfold has_upc in N. rewrite E, String.eqb_refl in N. discriminate.
Qed.

(** The catalogue holds UPC 00012345 on the first item and 0001234, a
    prefix of it, on the second: the lookup of 0001234 returns the second
    item, and the lookup of 000123 returns none. *)
Example findByUpc_prefix :
  fst (findByUpc (Js.JsString "0001234") (connected (catalogue dialect_only None)))
    = Resolved (mkEnvelope (Json.stringify (Json.of_document salt_pepper)) 200) /\
  fst (findByUpc (Js.JsString "000123") (connected (catalogue dialect_only None)))
    = Resolved (mkEnvelope "null" 404) /\
  fst (findByUpc (Js.JsNumber 12345) (connected (catalogue dialect_only None)))
    = Resolved (mkEnvelope "null" 404).
Proof. repeat split; reflexivity. Qed.

Lemma findByUpc_exact_witness :
  ready (connected (catalogue dialect_only None)) /\
  outage (mongod (connected (catalogue dialect_only None))) = None /\
  exists r,
    fst (findByUpc (Js.JsString "0001234") (connected (catalogue dialect_only None)))
      = Resolved (mkEnvelope (Json.stringify (Json.of_result r))
                    (match r with Some _ => 200 | None => 404 end)) /\
    match r with
    | Some d =>
        In d (items (connected (catalogue dialect_only None))) /\
        Bson.get d "upc" = Some (Bson.Str "0001234")
    | None =>
        Json.stringify (Json.of_result r) = "null" /\
        forall d, In d (items (connected (catalogue dialect_only None))) ->
                  Bson.get d "upc" <> Some (Bson.Str "0001234")
    end.
Proof.
  assert (R : ready (connected (catalogue dialect_only None)))
    by (exists (mkDb "catalog"); reflexivity).
  split; [exact R|]. split; [reflexivity|].
  exact (findByUpc_exact _ (Js.JsString "0001234") R eq_refl).
Defined.

(** ** Lookup by identifier: the miss *)

Lemma prefix_append (a b : string) : String.prefix a (a ++ b) = true.
Proof.
  induction a as [|c a IH]; simpl.
  - destruct b; reflexivity.
  - destruct (ascii_dec c c) as [_|N]; [exact IH | congruence].
Qed.

Lemma contains_unfold (n h : string) :
  contains n h =
    String.prefix n h ||
    match h with
    | EmptyString => false
    | String _ h' => contains n h'
    end.
Proof. destruct h; reflexivity. Qed.

Lemma contains_infix (a n b : string) : contains n (a ++ n ++ b) = true.
Proof.
  induction a as [|c a IH].
  - simpl append. rewrite contains_unfold, prefix_append. reflexivity.
  - simpl append. rewrite contains_unfold, IH. apply orb_true_r.
Qed.

(** The message of a miss names the identifier. *)
Lemma not_found_message_names (id : string) :
  contains id (not_found_message id) = true.
Proof. unfold not_found_message. apply contains_infix. Qed.

(** The one error the driver's constructor throws. *)
Lemma new_refuses_with_invalid_argument (id : string) (e : Js.Error) :
  ObjectID.new id = inl e -> e = ObjectID.invalid_argument.
Proof.
  unfold ObjectID.new.
  destruct (String.length id =? 24)%nat.
  - destruct (ObjectID.hex_decode id); intros H; inversion H; reflexivity.
  - destruct (String.length id =? 12)%nat; intros H; inversion H; reflexivity.
Qed.

(** C2, as the code has it.  For an identifier with no matching document,
    [findById] never resolves.  When the handle is initialised, the
    identifier is one the driver can read (24 hexadecimal characters or 12
    bytes) and the store answers, the promise is rejected with the message
    ["No document matching id: <id> could be found!"], which names the
    identifier.  An identifier the driver cannot read is rejected with the
    driver's argument error instead: an error object, not the message of a
    miss. *)
Theorem findById_miss (w : World) (id : string) :
  (forall d, In d (items w) -> matches_id id d = false) ->
  (forall env, fst (findById id w) <> Resolved env) /\
  (ready w -> outage (mongod w) = None ->
   forall oid, ObjectID.new id = inr oid ->
     fst (findById id w) = Rejected (Message (not_found_message id)) /\
     contains id (not_found_message id) = true) /\
  (ready w -> forall e, ObjectID.new id = inl e ->
     fst (findById id w) = Rejected (Failure e) /\
     e = ObjectID.invalid_argument /\
     forall msg, fst (findById id w) <> Rejected (Message msg)).
Proof.
  intros Miss.
  assert (Hrun : forall oid, ready w -> ObjectID.new id = inr oid ->
            outage (mongod w) = None ->
            fst (findById id w) = Rejected (Message (not_found_message id))).
  { intros oid R E O.
    rewrite (findById_run w id oid R E). cbv zeta.
    rewrite answer_by_id, O.
    destruct (List.find _ (items w)) as [d|] eqn:F; [|reflexivity].
    apply List.find_some in F. destruct F as [I P].
    specialize (Miss d I). unfold matches_id in Miss. rewrite E in Miss.
    congruence. }
  split; [|split].
  - intros env.
    destruct (db w) as [h|] eqn:H.
    + assert (R : ready w) by (exists h; exact H).
      case_eq (ObjectID.new id); [intros e E | intros oid E].
      * rewrite (findById_bad_id w id e R E). discriminate.
      * case_eq (outage (mongod w)); [intros e O | intros O].
        -- rewrite (findById_run w id oid R E). cbv zeta.
           rewrite answer_by_id, O. discriminate.
        -- rewrite (Hrun oid R E O). discriminate.
    + destruct (no_handle_findById w id H) as [_ N]. rewrite N. discriminate.
  - intros R O oid E. split.
    + apply (Hrun oid R E O).
    + apply not_found_message_names.
  - intros R e E. rewrite (findById_bad_id w id e R E).
    split; [reflexivity|].
    split; [apply (new_refuses_with_invalid_argument id), E | discriminate].
Qed.

(** An unknown identifier of the right shape. *)
Lemma findById_miss_witness :
  (forall d, In d (items (connected (catalogue dialect_only None))) ->
             matches_id "catalog-0009" d = false) /\
  fst (findById "catalog-0009" (connected (catalogue dialect_only None)))
    = Rejected (Message "No document matching id: catalog-0009 could be found!").
Proof.
  assert (M : forall d, In d (items (connected (catalogue dialect_only None))) ->
                        matches_id "catalog-0009" d = false).
  { intros d [E|[E|[]]]; rewrite <- E; reflexivity. }
  split; [exact M|].
  destruct (findById_miss _ "catalog-0009" M) as (_ & H & _).
  assert (R : ready (connected (catalogue dialect_only None)))
    by (exists (mkDb "catalog"); reflexivity).
  destruct (H R eq_refl (ObjectID.mk "catalog-0009") eq_refl) as [E _].
  rewrite E. reflexivity.
Defined.

(** C2, as the spec states it, fails on the identifier ["999"] of the spec's
    own scenario: the handle is initialised, the store answers and holds no
    document for ["999"], yet the promise is rejected with the driver's
    argument error, which is no not-found message and does not name the
    identifier. *)
Lemma findById_unreadable_id_counterexample :
  ready (connected (catalogue dialect_only None)) /\
  outage (mongod (connected (catalogue dialect_only None))) = None /\
  (forall d, In d (items (connected (catalogue dialect_only None))) ->
             matches_id "999" d = false) /\
  fst (findById "999" (connected (catalogue dialect_only None)))
    = Rejected (Failure ObjectID.invalid_argument) /\
  contains "999" (Js.message ObjectID.invalid_argument) = false /\
  ~ (exists msg,
       fst (findById "999" (connected (catalogue dialect_only None)))
         = Rejected (Message msg) /\ contains "999" msg = true).
Proof.
  split; [exists (mkDb "catalog"); reflexivity|].
  split; [reflexivity|].
  split; [intros d [E|[E|[]]]; rewrite <- E; reflexivity|].
  split; [reflexivity|].
  split; [reflexivity|].
  intros [msg [E _]]. discriminate E.
Qed.

(** ** The Brand schema *)

Lemma assoc_without (k k' : string) (doc : Mongoose.Candidate) :
  Bson.assoc k' (Mongoose.without k doc) =
    if String.eqb k k' then None else Bson.assoc k' doc.
Proof.
  induction doc as [|[k0 v] doc IH]; simpl.
  - destruct (String.eqb k k'); reflexivity.
  - destruct (String.eqb k k0) eqn:E0; simpl.
    + rewrite IH. destruct (String.eqb k k') eqn:E; [reflexivity|].
      apply String.eqb_eq in E0. subst k0.
      rewrite (String.eqb_sym k' k), E. reflexivity.
    + rewrite IH. destruct (String.eqb k k') eqn:E; [|reflexivity].
      apply String.eqb_eq in E. subst k'.
      rewrite E0. reflexivity.
Qed.

Lemma required_path_present (doc : Mongoose.Candidate) (k : string)
    (ty : Mongoose.SchemaType) :
  Mongoose.validate_path doc (k, Mongoose.mkPath ty true) = true ->
  Mongoose.present doc k.
Proof.
  unfold Mongoose.validate_path, Mongoose.present. simpl.
  destruct (Bson.assoc k doc) as [v|]; [|discriminate].
  intros H. exists v. split; [reflexivity|].
  destruct v; [discriminate| | | |]; discriminate.
Qed.

Lemma optional_path_absent (doc : Mongoose.Candidate) (k : string)
    (ty : Mongoose.SchemaType) :
  Bson.assoc k doc = None ->
  Mongoose.validate_path doc (k, Mongoose.mkPath ty false) = true.
Proof. unfold Mongoose.validate_path. simpl. intros ->. reflexivity. Qed.

(** C9.  Every document the Brand schema accepts has its [id] and
    [description] fields present (and its [_id]); [manufacturer], [address]
    and [website] may be absent: the same document without these three
    fields is accepted as well, and its three optional fields are absent. *)
Theorem brandSchema_required_and_optional (doc : Mongoose.Candidate) :
  Mongoose.validate brandSchema doc = true ->
  (Mongoose.present doc "_id" /\ Mongoose.present doc "id" /\
   Mongoose.present doc "description") /\
  let bare := Mongoose.without "manufacturer"
                (Mongoose.without "address" (Mongoose.without "website" doc)) in
  Mongoose.validate brandSchema bare = true /\
  Bson.assoc "manufacturer" bare = None /\
  Bson.assoc "address" bare = None /\
  Bson.assoc "website" bare = None.
Proof.
  unfold Mongoose.validate, brandSchema. simpl forallb.
  rewrite !andb_true_iff.
  intros (P1 & P2 & P3 & _).
  split.
  - repeat split; eapply required_path_present; eassumption.
  - cbv zeta.
    assert (A : forall k, Bson.assoc k
               (Mongoose.without "manufacturer"
                  (Mongoose.without "address" (Mongoose.without "website" doc)))
             = if String.eqb "manufacturer" k then None
               else if String.eqb "address" k then None
               else if String.eqb "website" k then None
               else Bson.assoc k doc).
    { intros k. rewrite !assoc_without. reflexivity. }
    split; [|repeat split; rewrite A; reflexivity].
    repeat split;
      try (apply optional_path_absent; rewrite A; reflexivity).
    + unfold Mongoose.validate_path in *. simpl fst in *. rewrite A. exact P1.
    + unfold Mongoose.validate_path in *. simpl fst in *. rewrite A. exact P2.
    + unfold Mongoose.validate_path in *. simpl fst in *. rewrite A. exact P3.
Qed.

(** A brand with nothing but its required fields, and one with an empty
    description. *)
Lemma brandSchema_required_and_optional_witness :
  Mongoose.validate brandSchema
    [("_id", Bson.Oid (ObjectID.mk "brand-000001"));
     ("id", Bson.Oid (ObjectID.mk "brand-000001"));
     ("description", Bson.Str "Acme");
     ("website", Bson.Str "https://acme.example")] = true /\
  Mongoose.present
    [("_id", Bson.Oid (ObjectID.mk "brand-000001"));
     ("id", Bson.Oid (ObjectID.mk "brand-000001"));
     ("description", Bson.Str "Acme");
     ("website", Bson.Str "https://acme.example")] "description".
Proof.
  split; [reflexivity|].
  apply (brandSchema_required_and_optional
           [("_id", Bson.Oid (ObjectID.mk "brand-000001"));
            ("id", Bson.Oid (ObjectID.mk "brand-000001"));
            ("description", Bson.Str "Acme");
            ("website", Bson.Str "https://acme.example")] eq_refl).
Defined.

Example brandSchema_rejects_missing_description :
  Mongoose.validate brandSchema
    [("_id", Bson.Oid (ObjectID.mk "brand-000001"));
     ("id", Bson.Oid (ObjectID.mk "brand-000001"));
     ("manufacturer", Bson.Str "Acme Corp")] = false.
Proof. reflexivity. Qed.

(** ** Reading back what [JSON.stringify] wrote *)

Lemma append_assoc (a b c : string) : (a ++ b) ++ c = a ++ (b ++ c).
Proof. induction a as [|x a IH]; simpl; [reflexivity | rewrite IH; reflexivity]. Qed.

Lemma length_append (a b : string) :
  String.length (a ++ b) = String.length a + String.length b.
Proof. induction a as [|x a IH]; simpl; [reflexivity | rewrite IH; reflexivity]. Qed.

Ltac each_char c := destruct c as [[] [] [] [] [] [] [] []].

Lemma read_quote_char (c : ascii) (t : string) :
  JsonText.read_string (Json.quote_char c ++ t)
  = JsonText.push (Some c) (JsonText.read_string t).
Proof. each_char c; reflexivity. Qed.

Lemma read_quote_body (s rest : string) :
  JsonText.read_string (Json.quote_body s ++ rest) = Some (s, rest).
Proof.
  induction s as [|c s IH].
  - reflexivity.
  - simpl Json.quote_body. rewrite append_assoc, read_quote_char, IH. reflexivity.
Qed.

Lemma uint_all_num (d : uint) : JsonText.all_num (NilEmpty.string_of_uint d) = true.
Proof. induction d; simpl; try rewrite IHd; reflexivity. Qed.

Lemma decimal_all_num (z : Z) : JsonText.all_num (Js.decimal z) = true.
Proof.
  unfold Js.decimal. destruct (Z.to_int z) as [d|d]; simpl.
  - destruct d; try reflexivity; simpl; apply uint_all_num.
  - destruct d; try reflexivity; simpl; apply uint_all_num.
Qed.

Lemma delimited_not_num (c : ascii) (s : string) :
  JsonText.delimited (String c s) = true ->
  JsonText.is_num_char c = false /\ JsonText.is_ws c = false /\
  (Ascii.eqb c "." || Ascii.eqb c "e" || Ascii.eqb c "E") = false.
Proof. each_char c; simpl; intros H; try discriminate H; repeat split. Qed.

Lemma span_num_append (tok rest : string) :
  JsonText.all_num tok = true -> JsonText.delimited rest = true ->
  JsonText.span_num (tok ++ rest) = (tok, rest).
Proof.
  intros A D. induction tok as [|c tok IH]; simpl.
  - destruct rest as [|c r]; [reflexivity|].
    destruct (delimited_not_num c r D) as [N _]. simpl. rewrite N. reflexivity.
  - simpl in A. apply andb_true_iff in A. destruct A as [A1 A2].
    rewrite A1, (IH A2). reflexivity.
Qed.

Lemma to_int_proper (z : Z) : Z.to_int z <> Pos Nil /\ Z.to_int z <> Neg Nil.
Proof.
  pose proof (DecimalZ.to_of (Z.to_int z)) as H.
  rewrite DecimalZ.of_to in H.
  destruct (Z.to_int z) as [d|d]; split; try discriminate; intros E;
    injection E as E; subst d; simpl in H; discriminate H.
Qed.

Lemma int_of_decimal (z : Z) :
  NilZero.int_of_string (Js.decimal z) = Some (Z.to_int z).
Proof.
  unfold Js.decimal. destruct (to_int_proper z) as [A B].
  apply NilZero.isi; assumption.
Qed.

Lemma read_number_decimal (z : Z) (rest : string) :
  JsonText.delimited rest = true ->
  JsonText.read_number (Js.decimal z ++ rest) = Some (z, rest).
Proof.
  intros D. unfold JsonText.read_number.
  rewrite (span_num_append _ _ (decimal_all_num z) D).
  rewrite int_of_decimal, DecimalZ.of_to, String.eqb_refl. simpl.
  destruct rest as [|c r]; [reflexivity|].
  destruct (delimited_not_num c r D) as (_ & _ & E). rewrite E. reflexivity.
Qed.

Lemma starts_value_facts (c : ascii) :
  JsonText.starts_value c = true ->
  JsonText.is_ws c = false /\ Ascii.eqb c "]" = false /\ Ascii.eqb c "}" = false.
Proof. each_char c; intros H; try discriminate H; repeat split. Qed.

Lemma num_char_facts (c : ascii) :
  JsonText.is_num_char c = true ->
  JsonText.is_ws c = false /\ Ascii.eqb c "n" = false /\ Ascii.eqb c "t" = false /\
  Ascii.eqb c "f" = false /\ Ascii.eqb c dquote = false /\
  Ascii.eqb c "[" = false /\ Ascii.eqb c "{" = false.
Proof. each_char c; intros H; try discriminate H; repeat split. Qed.

Lemma decimal_head (z : Z) :
  exists c s, Js.decimal z = String c s /\ JsonText.is_num_char c = true.
Proof.
  pose proof (decimal_all_num z) as A.
  pose proof (int_of_decimal z) as I.
  destruct (Js.decimal z) as [|c s]; [discriminate I|].
  simpl in A. apply andb_true_iff in A. exists c, s. split; [reflexivity | apply A].
Qed.

Lemma stringify_array (x : Json.t) (r : list Json.t) :
  Json.stringify (Json.Array (x :: r)) = "[" ++ Json.stringify x ++ Json.elements_text r.
Proof. reflexivity. Qed.

Lemma stringify_object (k : string) (x : Json.t) (r : list (string * Json.t)) :
  Json.stringify (Json.Object ((k, x) :: r))
  = "{" ++ Json.quote k ++ ":" ++ Json.stringify x ++ Json.members_text r.
Proof. reflexivity. Qed.

Lemma stringify_head (j : Json.t) :
  exists c s, Json.stringify j = String c s /\ JsonText.starts_value c = true.
Proof.
  destruct j as [|[]|z|s|[|x r]|[|[k x] r]];
    try (eexists; eexists; split; [reflexivity | reflexivity]).
  - destruct (decimal_head z) as (c & s & E & N). exists c, s. split; [exact E|].
    unfold JsonText.starts_value. rewrite N. reflexivity.
Qed.

Lemma weight_array (l : list Json.t) : Json.weight (Json.Array l) = S (Json.welems l).
Proof. reflexivity. Qed.

Lemma weight_object (l : list (string * Json.t)) :
  Json.weight (Json.Object l) = S (Json.wmembers l).
Proof. reflexivity. Qed.

Lemma parse_value_number (f : nat) (c : ascii) (s : string) :
  JsonText.is_num_char c = true ->
  JsonText.parse_value (S f) (String c s) =
    match JsonText.read_number (String c s) with
    | Some (z, r) => Some (Json.Number z, r)
    | None => None
    end.
Proof.
  intros N. destruct (num_char_facts c N) as (W & E1 & E2 & E3 & E4 & E5 & E6).
  cbn [JsonText.parse_value JsonText.skip_ws].
  rewrite W, E1, E2, E3, E4, E5, E6. reflexivity.
Qed.

Lemma reads_elements (l : list Json.t) :
  Forall JsonText.reads l ->
  forall fuel rest, Json.welems l <= fuel -> JsonText.delimited rest = true ->
    JsonText.parse_elements fuel (Json.elements_text l ++ rest) = Some (l, rest).
Proof.
  induction 1 as [|x r Hx Hr IH]; intros fuel rest W D.
  - destruct fuel as [|f]; [simpl in W; lia|]. reflexivity.
  - destruct fuel as [|f]; [simpl in W; lia|]. simpl in W.
    cbn [Json.elements_text].
    change ("," ++ Json.stringify x ++ Json.elements_text r)
      with (String "," (Json.stringify x ++ Json.elements_text r)).
    cbn [append JsonText.parse_elements JsonText.skip_ws].
    change (JsonText.is_ws ",") with false. cbv iota.
    change (Ascii.eqb "," "]") with false.
    change (Ascii.eqb "," ",") with true. cbv iota.
    rewrite append_assoc.
    rewrite Hx; [ | lia | ].
    + rewrite IH; [reflexivity | lia | exact D].
    + destruct r; reflexivity.
Qed.

Lemma reads_member (k : string) (x : Json.t) :
  JsonText.reads x ->
  forall fuel rest, S (Json.weight x) <= fuel -> JsonText.delimited rest = true ->
    JsonText.parse_member fuel (Json.quote k ++ String ":" (Json.stringify x ++ rest))
    = Some ((k, x), rest).
Proof.
  intros Hx fuel rest W D.
  destruct fuel as [|f]; [lia|].
  unfold Json.quote.
  cbn [append JsonText.parse_member JsonText.skip_ws].
  change (JsonText.is_ws dquote) with false. cbv iota.
  change (Ascii.eqb dquote dquote) with true. cbv iota.
  rewrite read_quote_body.
  cbn [append JsonText.skip_ws].
  change (JsonText.is_ws ":") with false. cbv iota.
  change (Ascii.eqb ":" ":") with true. cbv iota.
  rewrite Hx; [reflexivity | lia | exact D].
Qed.

Lemma reads_members (l : list (string * Json.t)) :
  Forall (fun kx => JsonText.reads (snd kx)) l ->
  forall fuel rest, Json.wmembers l <= fuel -> JsonText.delimited rest = true ->
    JsonText.parse_members fuel (Json.members_text l ++ rest) = Some (l, rest).
Proof.
  induction 1 as [|[k x] r Hx Hr IH]; intros fuel rest W D.
  - destruct fuel as [|f]; [simpl in W; lia|]. reflexivity.
  - destruct fuel as [|f]; [simpl in W; lia|]. simpl in W, Hx.
    cbn [Json.members_text].
    change ("," ++ Json.quote k ++ ":" ++ Json.stringify x ++ Json.members_text r)
      with (String "," (Json.quote k ++ ":" ++ Json.stringify x ++ Json.members_text r)).
    cbn [append JsonText.parse_members JsonText.skip_ws].
    change (JsonText.is_ws ",") with false. cbv iota.
    change (Ascii.eqb "," "}") with false.
    change (Ascii.eqb "," ",") with true. cbv iota.
    rewrite append_assoc. cbn [append]. rewrite append_assoc.
    rewrite (reads_member k x Hx); [ | lia | destruct r as [|[]]; reflexivity].
    rewrite IH; [reflexivity | lia | exact D].
Qed.

Theorem parse_value_stringify (j : Json.t) : JsonText.reads j.
Proof.
  induction j as [ |b|z|s|l IH|l IH] using Json.induction; intros fuel rest W D;
    (destruct fuel as [|f]; [simpl in W; lia|]).
  - reflexivity.
  - destruct b; reflexivity.
  - cbn [Json.stringify].
    destruct (decimal_head z) as (c & s & E & N).
    pose proof (read_number_decimal z rest D) as R.
    rewrite E in *. cbn [append] in *.
    rewrite (parse_value_number f c _ N), R. reflexivity.
  - cbn [Json.stringify]. unfold Json.quote.
    cbn [append JsonText.parse_value JsonText.skip_ws].
    change (JsonText.is_ws dquote) with false. cbv iota.
    change (Ascii.eqb dquote "n") with false.
    change (Ascii.eqb dquote "t") with false.
    change (Ascii.eqb dquote "f") with false.
    change (Ascii.eqb dquote dquote) with true. cbv iota.
    rewrite read_quote_body. reflexivity.
  - destruct l as [|x r].
    + reflexivity.
    + rewrite stringify_array. rewrite weight_array in W. simpl in W.
      inversion IH as [|? ? Hx Hr]; subst.
      destruct (stringify_head x) as (c & s & E & V).
      destruct (starts_value_facts c V) as (Ws & B1 & B2).
      change ("[" ++ Json.stringify x ++ Json.elements_text r)
        with (String "[" (Json.stringify x ++ Json.elements_text r)).
      cbn [append JsonText.parse_value JsonText.skip_ws].
      change (JsonText.is_ws "[") with false. cbv iota.
      change (Ascii.eqb "[" "n") with false.
      change (Ascii.eqb "[" "t") with false.
      change (Ascii.eqb "[" "f") with false.
      change (Ascii.eqb "[" dquote) with false.
      change (Ascii.eqb "[" "[") with true. cbv iota.
      rewrite append_assoc.
      rewrite E at 1. cbn [append JsonText.skip_ws]. rewrite Ws, B1.
      rewrite Hx; [ | lia | destruct r; reflexivity].
      rewrite (reads_elements r Hr); [reflexivity | lia | exact D].
  - destruct l as [|[k x] r].
    + reflexivity.
    + rewrite stringify_object. rewrite weight_object in W. simpl in W.
      inversion IH as [|? ? Hx Hr]; subst. simpl in Hx.
      change ("{" ++ Json.quote k ++ ":" ++ Json.stringify x ++ Json.members_text r)
        with (String "{" (Json.quote k ++ ":" ++ Json.stringify x ++ Json.members_text r)).
      cbn [append JsonText.parse_value].
      change (JsonText.skip_ws (String "{" ?t)) with (String "{" t).
      cbv iota.
      change (Ascii.eqb "{" "n") with false.
      change (Ascii.eqb "{" "t") with false.
      change (Ascii.eqb "{" "f") with false.
      change (Ascii.eqb "{" dquote) with false.
      change (Ascii.eqb "{" "[") with false.
      change (Ascii.eqb "{" "{") with true. cbv iota.
      unfold Json.quote at 1. cbn [append JsonText.skip_ws].
      change (JsonText.is_ws dquote) with false. cbv iota.
      change (Ascii.eqb dquote "}") with false. cbv iota.
      fold (Json.quote k).
      rewrite append_assoc. cbn [append]. rewrite append_assoc.
      rewrite (reads_member k x Hx); [ | lia | destruct r as [|[]]; reflexivity].
      rewrite (reads_members r Hr); [reflexivity | lia | exact D].
Qed.

Lemma weight_le_length (j : Json.t) : Json.weight j <= 2 * String.length (Json.stringify j).
Proof.
  induction j as [ |b|z|s|l IH|l IH] using Json.induction.
  - simpl. lia.
  - destruct b; simpl; lia.
  - destruct (decimal_head z) as (c & s & E & _). cbn [Json.stringify Json.weight].
    rewrite E. simpl. lia.
  - simpl. lia.
  - destruct l as [|x r]; [simpl; lia|].
    rewrite stringify_array, weight_array.
    inversion IH as [|? ? Hx Hr]; subst.
    assert (T : Json.welems r <= 2 * String.length (Json.elements_text r)).
    { clear Hx IH. induction Hr as [|y r Hy Hr IH]; [simpl; lia|].
      cbn [Json.welems Json.elements_text]. rewrite !length_append. simpl String.length. lia. }
    cbn [Json.welems]. rewrite !length_append. simpl String.length. lia.
  - destruct l as [|[k x] r]; [simpl; lia|].
    rewrite stringify_object, weight_object.
    inversion IH as [|? ? Hx Hr]; subst. simpl in Hx.
    assert (T : Json.wmembers r <= 2 * String.length (Json.members_text r)).
    { clear Hx IH. induction Hr as [|[k' y] r Hy Hr IH]; [simpl; lia|].
      simpl in Hy.
      cbn [Json.wmembers Json.members_text snd]. rewrite !length_append.
      simpl String.length. lia. }
    cbn [Json.wmembers snd]. rewrite !length_append. simpl String.length. lia.
Qed.

(** Reading back what [JSON.stringify] wrote gives the value written. *)
Theorem parse_stringify (j : Json.t) : JsonText.parse (Json.stringify j) = Some j.
Proof.
  unfold JsonText.parse.
  pose proof (parse_value_stringify j (2 * String.length (Json.stringify j) + 2)
                EmptyString) as H.
  assert (E : Json.stringify j ++ EmptyString = Json.stringify j).
  { generalize (Json.stringify j). intros s. induction s as [|c s IH]; simpl; [|rewrite IH]; reflexivity. }
  rewrite E in H. rewrite H; [reflexivity | | reflexivity].
  pose proof (weight_le_length j). lia.
Qed.


(** ** Identifiers and their hexadecimal form *)

Lemma hex_decode_encode_char (c : ascii) (r : string) :
  ObjectID.hex_decode (ObjectID.hex_encode (String c r))
  = option_map (String c) (ObjectID.hex_decode (ObjectID.hex_encode r)).
Proof.
  each_char c; cbn [ObjectID.hex_encode];
    (destruct (ObjectID.hex_decode (ObjectID.hex_encode r)) as [t|] eqn:E;
     cbn - [ObjectID.hex_encode]; rewrite E; reflexivity).
Qed.

Lemma hex_decode_encode (s : string) :
  ObjectID.hex_decode (ObjectID.hex_encode s) = Some s.
Proof.
  induction s as [|c s IH]; [reflexivity|].
  rewrite hex_decode_encode_char, IH. reflexivity.
Qed.

Lemma hex_encode_length (s : string) :
  String.length (ObjectID.hex_encode s) = 2 * String.length s.
Proof. induction s as [|c s IH]; simpl; [reflexivity | rewrite IH; lia]. Qed.

(** The driver reads the hexadecimal form of an identifier back to it. *)
Lemma new_toHexString (o : ObjectID.t) :
  ObjectID.well_formed o -> ObjectID.new (ObjectID.toHexString o) = inr o.
Proof.
  destruct o as [raw]. unfold ObjectID.well_formed, ObjectID.new, ObjectID.toHexString.
  simpl. intros L. rewrite hex_encode_length, L, hex_decode_encode. reflexivity.
Qed.

(** ** What a resolved promise carries *)

Lemma findById_resolved (w : World) (id : string) (env : Envelope) :
  fst (findById id w) = Resolved env ->
  exists d, In d (items w) /\ matches_id id d = true /\
            env = mkEnvelope (Json.stringify (Json.of_document d)) 200.
Proof.
  case_eq (db w); [intros h H | intros H].
  - assert (R : ready w) by (exists h; exact H).
    case_eq (ObjectID.new id); [intros e E | intros oid E].
    + rewrite (findById_bad_id w id e R E). discriminate.
    + rewrite (findById_run w id oid R E). cbv zeta. rewrite answer_by_id.
      destruct (outage (mongod w)); [discriminate|].
      destruct (List.find _ (items w)) as [d|] eqn:F; [|discriminate].
      intros Q. injection Q as Q. exists d.
      apply List.find_some in F. destruct F as [I P].
      unfold matches_id. rewrite E. auto.
  - destruct (no_handle_findById w id H) as [_ N]. rewrite N. discriminate.
Qed.

Lemma findByDescription_resolved (w : World) (v : Js.Value) (env : Envelope) :
  fst (findByDescription v w) = Resolved env ->
  exists documents,
    incl documents (items w) /\
    env = mkEnvelope (Json.stringify (Json.of_documents documents))
            (if (0 <? length documents)%nat then 200 else 404).
Proof.
  case_eq (db w); [intros h H | intros H].
  - assert (R : ready w) by (exists h; exact H).
    rewrite (findByDescription_run w v R). cbv zeta. unfold answer.
    destruct (outage (mongod w)); [discriminate|].
    destruct (compile (mongod w) (by_description v)) as [e|p]; [discriminate|].
    intros Q. injection Q as Q. exists (List.filter p (items w)).
    split; [apply List.incl_filter | auto].
  - destruct (no_handle_findByDescription w v H) as [_ N]. rewrite N. discriminate.
Qed.

Lemma findByUpc_resolved (w : World) (upc : Js.Value) (env : Envelope) :
  fst (findByUpc upc w) = Resolved env ->
  exists r,
    env = mkEnvelope (Json.stringify (Json.of_result r))
            (match r with Some _ => 200 | None => 404 end).
Proof.
  case_eq (db w); [intros h H | intros H].
  - assert (R : ready w) by (exists h; exact H).
    rewrite (findByUpc_run w upc R). cbv zeta. rewrite answer_by_upc.
    destruct (outage (mongod w)); [discriminate|].
    intros Q. injection Q as Q. eexists. symmetry. exact Q.
  - destruct (no_handle_findByUpc w upc H) as [_ N]. rewrite N. discriminate.
Qed.

(** What the store hands to the continuation of each lookup when the
    promise resolves. *)
Lemma findById_resolved_with (w : World) (id : string) (env : Envelope) :
  fst (findById id w) = Resolved env ->
  exists oid d,
    ObjectID.new id = inr oid /\
    List.find (fun x => ObjectID.eqb (Bson._id x) oid) (items w) = Some d /\
    env = mkEnvelope (Json.stringify (Json.of_document d)) 200.
Proof.
  case_eq (db w); [intros h H | intros H].
  - assert (R : ready w) by (exists h; exact H).
    case_eq (ObjectID.new id); [intros e E | intros oid E].
    + rewrite (findById_bad_id w id e R E). discriminate.
    + rewrite (findById_run w id oid R E). cbv zeta. rewrite answer_by_id.
      destruct (outage (mongod w)); [discriminate|].
      destruct (List.find _ (items w)) as [d|] eqn:F; [|discriminate].
      intros Q. injection Q as Q. exists oid, d. auto.
  - destruct (no_handle_findById w id H) as [_ N]. rewrite N. discriminate.
Qed.

Lemma findByDescription_resolved_with (w : World) (v : Js.Value) (env : Envelope) :
  fst (findByDescription v w) = Resolved env ->
  env = mkEnvelope
          (Json.stringify
             (Json.of_documents (selected (mongod w) (by_description v) (items w))))
          (if (0 <? length (selected (mongod w) (by_description v) (items w)))%nat
           then 200 else 404).
Proof.
  case_eq (db w); [intros h H | intros H].
  - assert (R : ready w) by (exists h; exact H).
    rewrite (findByDescription_run w v R). cbv zeta. unfold answer, selected.
    destruct (outage (mongod w)); [discriminate|].
    destruct (compile (mongod w) (by_description v)) as [e|p]; [discriminate|].
    intros Q. injection Q as Q. auto.
  - destruct (no_handle_findByDescription w v H) as [_ N]. rewrite N. discriminate.
Qed.

Lemma findByUpc_resolved_with (w : World) (upc : Js.Value) (env : Envelope) :
  fst (findByUpc upc w) = Resolved env ->
  env = mkEnvelope
          (Json.stringify
             (Json.of_result (List.find (has_upc (Js.ToString upc)) (items w))))
          (match List.find (has_upc (Js.ToString upc)) (items w) with
           | Some _ => 200
           | None => 404
           end).
Proof.
  case_eq (db w); [intros h H | intros H].
  - assert (R : ready w) by (exists h; exact H).
    rewrite (findByUpc_run w upc R). cbv zeta. rewrite answer_by_upc.
    destruct (outage (mongod w)); [discriminate|].
    intros Q. injection Q as Q. auto.
  - destruct (no_handle_findByUpc w upc H) as [_ N]. rewrite N. discriminate.
Qed.

(** C10.  Whenever [findById], [findByDescription] or [findByUpc] resolves,
    the status of the envelope is 200 or 404 and its data is a JSON text,
    the serialisation of the query result: for [findById] the first stored
    document with the identifier, for [findByDescription] the array of the
    documents the filter selects, for [findByUpc] the first stored document
    with that UPC, or [null].  Reading the text gives that result back, and
    the status is the one the result calls for. *)
Theorem resolved_envelope_shape (w : World) (id : string) (v : Js.Value)
    (env : Envelope) :
  (fst (findById id w) = Resolved env ->
   exists oid d,
     ObjectID.new id = inr oid /\
     List.find (fun x => ObjectID.eqb (Bson._id x) oid) (items w) = Some d /\
     data env = Json.stringify (Json.of_document d) /\
     JsonText.parse (data env) = Some (Json.of_document d) /\
     statusCode env = 200%Z) /\
  (fst (findByDescription v w) = Resolved env ->
   let documents := selected (mongod w) (by_description v) (items w) in
   data env = Json.stringify (Json.of_documents documents) /\
   JsonText.parse (data env) = Some (Json.of_documents documents) /\
   statusCode env = (if (0 <? length documents)%nat then 200 else 404)%Z) /\
  (fst (findByUpc v w) = Resolved env ->
   let document := List.find (has_upc (Js.ToString v)) (items w) in
   data env = Json.stringify (Json.of_result document) /\
   JsonText.parse (data env) = Some (Json.of_result document) /\
   statusCode env = (match document with Some _ => 200 | None => 404 end)%Z) /\
  (fst (findById id w) = Resolved env \/
   fst (findByDescription v w) = Resolved env \/
   fst (findByUpc v w) = Resolved env ->
   (statusCode env = 200%Z \/ statusCode env = 404%Z) /\
   exists j, data env = Json.stringify j /\ JsonText.parse (data env) = Some j).
Proof.
  assert (A : fst (findById id w) = Resolved env ->
    exists oid d,
      ObjectID.new id = inr oid /\
      List.find (fun x => ObjectID.eqb (Bson._id x) oid) (items w) = Some d /\
      data env = Json.stringify (Json.of_document d) /\
      JsonText.parse (data env) = Some (Json.of_document d) /\
      statusCode env = 200%Z).
  { intros H. apply findById_resolved_with in H. destruct H as (oid & d & N & F & E).
    subst env. exists oid, d. cbn [data statusCode].
    repeat split; auto. apply parse_stringify. }
  assert (B : fst (findByDescription v w) = Resolved env ->
    data env = Json.stringify
                 (Json.of_documents (selected (mongod w) (by_description v) (items w))) /\
    JsonText.parse (data env)
      = Some (Json.of_documents (selected (mongod w) (by_description v) (items w))) /\
    statusCode env
      = (if (0 <? length (selected (mongod w) (by_description v) (items w)))%nat
         then 200 else 404)%Z).
  { intros H. apply findByDescription_resolved_with in H. subst env.
    cbn [data statusCode]. repeat split. apply parse_stringify. }
  assert (C : fst (findByUpc v w) = Resolved env ->
    data env = Json.stringify
                 (Json.of_result (List.find (has_upc (Js.ToString v)) (items w))) /\
    JsonText.parse (data env)
      = Some (Json.of_result (List.find (has_upc (Js.ToString v)) (items w))) /\
    statusCode env
      = (match List.find (has_upc (Js.ToString v)) (items w) with
         | Some _ => 200
         | None => 404
         end)%Z).
  { intros H. apply findByUpc_resolved_with in H. subst env.
    cbn [data statusCode]. repeat split. apply parse_stringify. }
  split; [exact A|]. split; [exact B|]. split; [exact C|].
  intros [H|[H|H]].
  - destruct (A H) as (oid & d & _ & _ & D & P & S).
    split; [left; exact S|]. exists (Json.of_document d). auto.
  - destruct (B H) as (D & P & S).
    split; [rewrite S; destruct (0 <? _)%nat; auto|]. eexists. eauto.
  - destruct (C H) as (D & P & S).
    split; [rewrite S; destruct (List.find _ _); auto|]. eexists. eauto.
Qed.

(** The red widget found by its UPC: the data is the text of that document,
    not of another result. *)
Lemma resolved_envelope_shape_witness :
  fst (findByUpc (Js.JsString "00012345") (connected (catalogue dialect_only None)))
    = Resolved (mkEnvelope (Json.stringify (Json.of_document red_widget)) 200) /\
  List.find (has_upc "00012345") (items (connected (catalogue dialect_only None)))
    = Some red_widget /\
  JsonText.parse (Json.stringify (Json.of_document red_widget))
    = Some (Json.of_document red_widget).
Proof.
  assert (E : fst (findByUpc (Js.JsString "00012345")
                     (connected (catalogue dialect_only None)))
              = Resolved (mkEnvelope (Json.stringify (Json.of_document red_widget)) 200))
    by reflexivity.
  split; [exact E|]. split; [reflexivity|].
  destruct (resolved_envelope_shape (connected (catalogue dialect_only None))
              "catalog-0001" (Js.JsString "00012345")
              (mkEnvelope (Json.stringify (Json.of_document red_widget)) 200))
    as (_ & _ & U & _).
  exact (proj1 (proj2 (U E))).
Defined.

(** ** Lookup by identifier: the hit *)

Lemma find_by_unique_id (docs : list Bson.Document) (d : Bson.Document) :
  unique_ids docs -> In d docs ->
  List.find (fun x => ObjectID.eqb (Bson._id x) (Bson._id d)) docs = Some d.
Proof.
  unfold unique_ids, ObjectID.eqb.
  induction docs as [|x docs IH]; intros U I; [destruct I|].
  simpl in U. inversion U as [|? ? Fresh U']; subst.
  simpl. destruct I as [E|I].
  - subst x. rewrite String.eqb_refl. reflexivity.
  - destruct (String.eqb (ObjectID.id (Bson._id x)) (ObjectID.id (Bson._id d))) eqn:Q.
    + apply String.eqb_eq in Q. exfalso. apply Fresh. rewrite Q.
      apply (in_map (fun d => ObjectID.id (Bson._id d))). exact I.
    + apply IH; assumption.
Qed.

Lemma member_of_fields (k : string) (fs : list (string * Bson.Value)) :
  Bson.assoc k fs = None ->
  JsonText.member k (map (fun kv => (fst kv, Json.of_value (snd kv))) fs) = None.
Proof.
  induction fs as [|[k' v] fs IH]; [reflexivity|]. simpl.
  destruct (String.eqb k k'); [discriminate|]. intros H. rewrite (IH H). reflexivity.
Qed.

Lemma property_id (d : Bson.Document) :
  Bson.assoc "_id" (Bson.fields d) = None ->
  JsonText.property (Json.of_document d) "_id"
  = Some (Json.Str (ObjectID.toHexString (Bson._id d))).
Proof.
  intros H. unfold Json.of_document, JsonText.property.
  cbn [JsonText.member]. rewrite (member_of_fields _ _ H). reflexivity.
Qed.

(** C3.  For every valid stored item [d] (in a collection indexed by
    identifier, with the handle initialised and the store answering),
    [findById] of the item's identifier resolves with the envelope whose
    data is the serialisation of [d] and whose status is 200.  The data is
    a text: reading it gives the JSON value of [d], and the [_id] property
    of that value is the item's identifier. *)
Theorem findById_stored_item (w : World) (d : Bson.Document) :
  ready w ->
  outage (mongod w) = None ->
  unique_ids (items w) ->
  In d (items w) ->
  valid_item d ->
  fst (findById (ObjectID.toHexString (Bson._id d)) w)
    = Resolved (mkEnvelope (Json.stringify (Json.of_document d)) 200) /\
  exists j,
    JsonText.parse (Json.stringify (Json.of_document d)) = Some j /\
    JsonText.property j "_id" = Some (Json.Str (ObjectID.toHexString (Bson._id d))).
Proof.
  intros R O U I [WF Single]. split.
  - rewrite (findById_run w _ (Bson._id d) R (new_toHexString _ WF)). cbv zeta.
    rewrite answer_by_id, O, (find_by_unique_id _ d U I). reflexivity.
  - exists (Json.of_document d). split; [apply parse_stringify | apply property_id, Single].
Qed.

(** The red widget, asked for by its identifier. *)
Lemma findById_stored_item_witness :
  ready (connected (catalogue dialect_only None)) /\
  In red_widget (items (connected (catalogue dialect_only None))) /\
  valid_item red_widget /\
  fst (findById "636174616c6f672d30303031" (connected (catalogue dialect_only None)))
    = Resolved (mkEnvelope (Json.stringify (Json.of_document red_widget)) 200).
Proof.
  assert (R : ready (connected (catalogue dialect_only None)))
    by (exists (mkDb "catalog"); reflexivity).
  assert (U : unique_ids (items (connected (catalogue dialect_only None)))).
  { unfold unique_ids. simpl. repeat constructor; simpl; intuition discriminate. }
  assert (I : In red_widget (items (connected (catalogue dialect_only None))))
    by (left; reflexivity).
  assert (V : valid_item red_widget) by (split; reflexivity).
  split; [exact R|]. split; [exact I|]. split; [exact V|].
  exact (proj1 (findById_stored_item _ red_widget R eq_refl U I V)).
Defined.

Example findById_stored_item_data :
  Json.stringify (Json.of_document red_widget)
  = String "{" (Json.quote "_id" ++ ":" ++ Json.quote "636174616c6f672d30303031" ++ ","
      ++ Json.quote "itemDescription" ++ ":" ++ Json.quote "Red Widget" ++ ","
      ++ Json.quote "upc" ++ ":" ++ Json.quote "00012345" ++ "}").
Proof. reflexivity. Qed.

(** ** Lookup by description: the text is read as a pattern *)

(** C4 at a text with a metacharacter.  The catalogue holds an item
    described as "Salt+Pepper Set", which contains the text "Salt+Pepper".
    [findByDescription("Salt+Pepper")] builds the pattern
    [.*Salt+Pepper.*], in which [+] repeats the [t]; the item does not
    match it, and the promise resolves with the empty array and status
    404.  This holds with every engine that follows the dialect. *)
Theorem findByDescription_reads_text_as_pattern (beyond : RegexEngine) :
  In salt_pepper (items (connected (catalogue (Pcre.engine beyond) None))) /\
  describes "Salt+Pepper" salt_pepper = true /\
  fst (findByDescription (Js.JsString "Salt+Pepper")
         (connected (catalogue (Pcre.engine beyond) None)))
    = Resolved (mkEnvelope "[]" 404).
Proof.
  split; [right; left; reflexivity|]. split; reflexivity.
Qed.

(** A text with an unbalanced parenthesis is no pattern at all: the server
    refuses the query and the lookup is rejected. *)
Example findByDescription_unbalanced_parenthesis (beyond : RegexEngine) :
  fst (findByDescription (Js.JsString "Widget (")
         (connected (catalogue (Pcre.engine beyond) None)))
    = Rejected (Failure (Pcre.invalid_regex "missing )")).
Proof. reflexivity. Qed.

(** A plain text is found as a substring, letter case apart. *)
Example findByDescription_plain_text (beyond : RegexEngine) :
  fst (findByDescription (Js.JsString "widget")
         (connected (catalogue (Pcre.engine beyond) None)))
    = Resolved (mkEnvelope (Json.stringify (Json.of_documents [red_widget])) 200).
Proof. reflexivity. Qed.

(** ** The pattern dialect: what a regex matches *)

Import Pcre.

Section Semantics.
Variable ci : bool.

Lemma append_nil_r (s : string) : s ++ EmptyString = s.
Proof. induction s as [|c s IH]; simpl; [|rewrite IH]; reflexivity. Qed.

Lemma append_eq_nil (s t : string) : s ++ t = EmptyString -> s = EmptyString /\ t = EmptyString.
Proof. destruct s; simpl; [auto | discriminate]. Qed.

Lemma nullable_spec (r : regex) : nullable r = true <-> Matches ci r EmptyString.
Proof.
  split.
  - induction r; simpl; intros H; try discriminate.
    + constructor.
    + apply andb_true_iff in H. destruct H as [H1 H2].
      apply (MSeq ci r1 r2 EmptyString EmptyString); auto.
    + apply orb_true_iff in H. destruct H as [H|H]; [apply MAltL | apply MAltR]; auto.
    + constructor.
  - intros H. remember EmptyString as e eqn:E. 
    induction H; simpl; try discriminate; auto.
    + apply append_eq_nil in E. destruct E as [-> ->].
      rewrite IHMatches1, IHMatches2; auto.
    + rewrite IHMatches; auto.
    + rewrite IHMatches; auto. apply orb_true_r.
Qed.

Lemma mk_seq_spec (a b : regex) (s : string) :
  Matches ci (mk_seq a b) s <-> Matches ci (Seq a b) s.
Proof.
  destruct a; simpl; try tauto.
  - split; intros H; inversion H; subst.
    match goal with H1 : Matches _ Void _ |- _ => inversion H1 end.
  - split; intros H.
    + apply (MSeq ci Eps b EmptyString s); [constructor | exact H].
    + inversion H as [| | |a' b' u t Hu Ht| | | |]; subst.
      inversion Hu; subst. exact Ht.
Qed.

Lemma mk_alt_spec (a b : regex) (s : string) :
  Matches ci (mk_alt a b) s <-> Matches ci a s \/ Matches ci b s.
Proof.
  assert (V : forall t, ~ Matches ci Void t) by (intros t H; inversion H).
  assert (G : Matches ci (Alt a b) s <-> Matches ci a s \/ Matches ci b s).
  { split; [intros H; inversion H; subst; auto | intros [H|H]; [apply MAltL | apply MAltR]; auto]. }
  destruct a; destruct b; simpl; try exact G;
    split; try (intros [H|H]; auto; exfalso; eapply V; eassumption); auto.
Qed.

Lemma seq_inv (a b : regex) (u : string) :
  Matches ci (Seq a b) u ->
  exists s t, u = s ++ t /\ Matches ci a s /\ Matches ci b t.
Proof. intros H. inversion H; subst. eauto. Qed.

Lemma star_cons (a : regex) (c : ascii) (s : string) :
  Matches ci (Star a) (String c s) ->
  exists s1 s2, s = s1 ++ s2 /\ Matches ci a (String c s1) /\ Matches ci (Star a) s2.
Proof.
  intros H. remember (Star a) as r eqn:R. remember (String c s) as u eqn:U.
  revert s U. induction H; intros s0 U; try discriminate.
  injection R as R. subst a0.
  destruct s as [|d s].
  - simpl in U. apply IHMatches2; auto.
  - simpl in U. injection U as U1 U2. subst d s0.
    exists s, t. auto.
Qed.

Lemma der_spec (r : regex) (c : ascii) (s : string) :
  Matches ci (der ci c r) s <-> Matches ci r (String c s).
Proof.
  revert s. induction r as [ | |x| |a IHa b IHb|a IHa b IHb|a IHa]; intros s; simpl.
  - split; intros H; inversion H.
  - split; intros H; inversion H.
  - destruct (chr_eq ci x c) eqn:E; split; intros H; inversion H; subst.
    + constructor. exact E.
    + constructor.
    + congruence.
  - destruct (Ascii.eqb c newline) eqn:E; split; intros H; inversion H; subst.
    + congruence.
    + constructor. exact E.
    + constructor.
  - assert (Left : Matches ci (mk_seq (der ci c a) b) s ->
                   Matches ci (Seq a b) (String c s)).
    { intros H. apply mk_seq_spec in H. inversion H; subst.
      apply (MSeq ci a b (String c s0) t); [apply IHa|]; assumption. }
    assert (Split : Matches ci (Seq a b) (String c s) ->
                    Matches ci (mk_seq (der ci c a) b) s \/
                    (nullable a = true /\ Matches ci (der ci c b) s)).
    { intros H. apply seq_inv in H. destruct H as (s1 & t & E & H1 & H2).
      destruct s1 as [|d s1].
      - right. simpl in E. subst t. split; [apply nullable_spec, H1 | apply IHb, H2].
      - left. simpl in E. injection E as E1 E2. subst d s.
        apply mk_seq_spec. apply MSeq; [apply IHa|]; assumption. }
    destruct (nullable a) eqn:N.
    + rewrite mk_alt_spec. split.
      * intros [H|H]; [apply Left, H|].
        apply (MSeq ci a b EmptyString (String c s));
          [apply nullable_spec, N | apply IHb, H].
      * intros H. destruct (Split H) as [L|[_ R]]; auto.
    + split; [exact Left|]. intros H. destruct (Split H) as [L|[D _]]; [exact L | discriminate].
  - rewrite mk_alt_spec. split.
    + intros [H|H]; [apply MAltL, IHa | apply MAltR, IHb]; exact H.
    + intros H. inversion H; subst; [left; apply IHa | right; apply IHb]; assumption.
  - rewrite mk_seq_spec. split.
    + intros H. inversion H; subst.
      apply (MStarS ci a (String c s0) t); [apply IHa|]; assumption.
    + intros H. apply star_cons in H. destruct H as (s1 & s2 & E & H1 & H2). subst s.
      apply MSeq; [apply IHa|]; assumption.
Qed.

(** [match_here]: some prefix of the subject is matched in full. *)
Lemma match_here_spec (r : regex) (s : string) :
  match_here ci r s = true <-> exists p q, s = p ++ q /\ Matches ci r p.
Proof.
  revert r. induction s as [|c s IH]; intros r; simpl.
  - rewrite orb_false_r, nullable_spec. split.
    + intros H. exists EmptyString, EmptyString. auto.
    + intros (p & q & E & H). symmetry in E. apply append_eq_nil in E.
      destruct E as [-> _]. exact H.
  - rewrite orb_true_iff, nullable_spec, IH. split.
    + intros [H|(p & q & E & H)].
      * exists EmptyString, (String c s). auto.
      * exists (String c p), q. subst s. split; [reflexivity | apply der_spec, H].
    + intros (p & q & E & H). destruct p as [|d p].
      * left. exact H.
      * right. simpl in E. injection E as E1 E2. subst d s.
        exists p, q. split; [reflexivity | apply der_spec, H].
Qed.

(** [search]: some run of the subject is matched in full. *)
Lemma search_spec (r : regex) (s : string) :
  search ci r s = true <-> exists a p b, s = a ++ p ++ b /\ Matches ci r p.
Proof.
  induction s as [|c s IH]; cbn [search].
  - rewrite orb_false_r, match_here_spec. split.
    + intros (p & q & E & H). exists EmptyString, p, q. auto.
    + intros (a & p & b & E & H). symmetry in E. apply append_eq_nil in E.
      destruct E as [-> E]. apply append_eq_nil in E. destruct E as [-> ->].
      exists EmptyString, EmptyString. auto.
  - rewrite orb_true_iff, match_here_spec, IH. split.
    + intros [(p & q & E & H)|(a & p & b & E & H)].
      * exists EmptyString, p, q. auto.
      * exists (String c a), p, b. subst s. auto.
    + intros (a & p & b & E & H). destruct a as [|d a].
      * left. exists p, b. auto.
      * right. simpl in E. injection E as E1 E2. exists a, p, b. auto.
Qed.
End Semantics.

Lemma lowercase_append (a b : string) :
  lowercase (a ++ b) = lowercase a ++ lowercase b.
Proof. induction a as [|c a IH]; simpl; [|rewrite IH]; reflexivity. Qed.

Lemma lowercase_split (h x y : string) :
  lowercase h = x ++ y ->
  exists h1 h2, h = h1 ++ h2 /\ lowercase h1 = x /\ lowercase h2 = y.
Proof.
  revert h. induction x as [|c x IH]; intros h E.
  - exists EmptyString, h. auto.
  - destruct h as [|d h]; [discriminate|]. simpl in E. injection E as E1 E2.
    destruct (IH h E2) as (h1 & h2 & A & B & C).
    exists (String d h1), h2. simpl. subst. auto.
Qed.

Lemma prefix_spec (n h : string) :
  String.prefix n h = true <-> exists b, h = n ++ b.
Proof.
  revert h. induction n as [|c n IH]; intros [|d h]; simpl.
  - split; [intros _; exists EmptyString; reflexivity | reflexivity].
  - split; [intros _; exists (String d h); reflexivity | reflexivity].
  - split; [discriminate | intros [b E]; discriminate].
  - destruct (ascii_dec c d) as [->|N].
    + rewrite IH. split; intros [b E]; exists b; [subst; reflexivity | injection E; auto].
    + split; [discriminate | intros [b E]; injection E; intros; congruence].
Qed.

Lemma contains_spec (n h : string) :
  contains n h = true <-> exists a b, h = a ++ n ++ b.
Proof.
  induction h as [|c h IH]; cbn [contains]; rewrite orb_true_iff, prefix_spec.
  - split.
    + intros [[b E]|F]; [exists EmptyString, b; exact E | discriminate].
    + intros (a & b & E). left. destruct a; [exists b; exact E | discriminate].
  - rewrite IH. split.
    + intros [[b E]|(a & b & E)].
      * exists EmptyString, b. exact E.
      * exists (String c a), b. simpl. rewrite E. reflexivity.
    + intros (a & b & E). destruct a as [|d a].
      * left. exists b. exact E.
      * right. simpl in E. injection E as E1 E2. exists a, b. exact E2.
Qed.

(** [contains_ci]: a run of the subject has the letters of the text. *)
Lemma contains_ci_spec (s subj : string) :
  contains_ci s subj = true <->
  exists a v b, subj = a ++ v ++ b /\ lowercase v = lowercase s.
Proof.
  unfold contains_ci. rewrite contains_spec. split.
  - intros (a' & b' & E).
    destruct (lowercase_split _ _ _ E) as (a & r & E1 & _ & E2).
    destruct (lowercase_split _ _ _ E2) as (v & b & E3 & E4 & _).
    exists a, v, b. subst. auto.
  - intros (a & v & b & E & L). exists (lowercase a), (lowercase b).
    subst subj. rewrite !lowercase_append, L. reflexivity.
Qed.

Lemma lits_spec (s : string) (tail : regex) (q : string) :
  Matches true (lits s tail) q <->
  exists v t, q = v ++ t /\ lowercase v = lowercase s /\ Matches true tail t.
Proof.
  revert q. induction s as [|c s IH]; intros q; cbn [lits].
  - split.
    + intros H. exists EmptyString, q. auto.
    + intros (v & t & E & L & H). destruct v; [|discriminate]. subst q. exact H.
  - split.
    + intros H. apply seq_inv in H. destruct H as (x & y & E & H1 & H2).
      inversion H1 as [|c' d C| | | | | |]; subst.
      apply IH in H2. destruct H2 as (v & t & E & L & H2).
      exists (String d v), t. subst y. simpl.
      unfold chr_eq in C. apply Ascii.eqb_eq in C. rewrite L, C. auto.
    + intros (v & t & E & L & H). destruct v as [|d v]; [discriminate|].
      simpl in L. injection L as L1 L2. subst q.
      apply (MSeq true (Lit c) (lits s tail) (String d EmptyString) (v ++ t)).
      * constructor. unfold chr_eq. rewrite L1. apply Ascii.eqb_refl.
      * apply IH. exists v, t. auto.
Qed.

Lemma search_around (s subj : string) :
  search true (around s) subj = contains_ci s subj.
Proof.
  apply Bool.eq_iff_eq_true. rewrite search_spec, contains_ci_spec. split.
  - intros (a & p & b & E & H). unfold around in H.
    apply seq_inv in H. destruct H as (u & q & E1 & _ & H).
    apply lits_spec in H. destruct H as (v & t & E2 & L & _).
    exists (a ++ u), v, (t ++ b). split; [|exact L].
    subst. rewrite !append_assoc. reflexivity.
  - intros (a & v & b & E & L). exists a, v, b. split; [exact E|].
    unfold around.
    apply (MSeq true (Star Dot) _ EmptyString v); [constructor|].
    apply lits_spec. exists v, EmptyString. split; [symmetry; apply append_nil_r|].
    split; [exact L|].
    apply (MSeq true (Star Dot) Eps EmptyString EmptyString); constructor.
Qed.

Lemma plain_char_facts (c : ascii) :
  plain_char c = true ->
  (Ascii.eqb c "|" || Ascii.eqb c ")") = false /\
  Ascii.eqb c "(" = false /\ Ascii.eqb c "." = false /\
  Ascii.eqb c backslash = false /\ is_quantifier c = false /\
  is_meta c = false /\ (128 <=? nat_of_ascii c)%nat = false /\
  Ascii.eqb c "?" = false /\ Ascii.eqb c "*" = false /\
  Ascii.eqb c "+" = false /\ Ascii.eqb c "{" = false.
Proof. each_char c; intros H; try discriminate H; repeat split. Qed.

(** After a plain text and [.*] the next character is never a quantifier. *)
Lemma plain_head (s : string) :
  plain s = true ->
  exists c r, s ++ ".*" = String c r /\ is_quantifier c = false /\
              Ascii.eqb c "?" = false /\ Ascii.eqb c "*" = false /\
              Ascii.eqb c "+" = false /\ Ascii.eqb c "{" = false.
Proof.
  destruct s as [|c s]; simpl; intros H.
  - exists "."%char, "*". repeat split.
  - apply andb_true_iff in H. destruct H as [H _].
    destruct (plain_char_facts c H) as (_ & _ & _ & _ & Q & _ & _ & A & B & C & D).
    exists c, (s ++ ".*"). repeat split; assumption.
Qed.

Lemma quantified_none (r : regex) (s : string) :
  plain s = true -> quantified r (s ++ ".*") = Ok (r, s ++ ".*").
Proof.
  intros H. destruct (plain_head s H) as (c & t & E & Q & _). rewrite E.
  unfold quantified. rewrite Q. reflexivity.
Qed.

Lemma parse_seq_step (f : nat) (c : ascii) (r : string) :
  (Ascii.eqb c "|" || Ascii.eqb c ")") = false ->
  parse_seq (S f) (String c r) =
    match parse_atom f (String c r) with
    | Ok (a, rest) =>
        match quantified a rest with
        | Ok (a', rest') =>
            match parse_seq f rest' with
            | Ok (b, rest'') => Ok (Seq a' b, rest'')
            | other => other
            end
        | other => other
        end
    | other => other
    end.
Proof. intros H. simpl. rewrite H. reflexivity. Qed.

Lemma parse_atom_plain (f : nat) (c : ascii) (r : string) :
  plain_char c = true -> parse_atom (S f) (String c r) = Ok (Lit c, r).
Proof.
  intros P. destruct (plain_char_facts c P) as (_ & A2 & A3 & A4 & A5 & A6 & A7 & _).
  cbn [parse_atom]. rewrite A2, A3, A4, A5, A6, A7. reflexivity.
Qed.

Lemma parse_seq_plain (s : string) (fuel : nat) :
  plain s = true -> String.length s + 3 <= fuel ->
  parse_seq fuel (s ++ ".*") = Ok (lits s (Seq (Star Dot) Eps), EmptyString).
Proof.
  revert fuel. induction s as [|c s IH]; intros fuel P F.
  - destruct fuel as [|[|[|f]]]; try (simpl in F; lia). reflexivity.
  - simpl in P. apply andb_true_iff in P. destruct P as [Pc Ps].
    destruct (plain_char_facts c Pc) as (A1 & _).
    destruct fuel as [|[|f]]; try (simpl in F; lia). simpl in F.
    cbn [append lits].
    rewrite (parse_seq_step _ _ _ A1), (parse_atom_plain _ _ _ Pc).
    rewrite (quantified_none _ s Ps).
    rewrite (IH (S f) Ps); [reflexivity | lia].
Qed.

Lemma parse_around (s : string) :
  plain s = true -> parse (".*" ++ s ++ ".*") = Ok (around s).
Proof.
  intros P. unfold parse.
  assert (L2 : String.length (s ++ ".*") = String.length s + 2).
  { clear. induction s as [|c s IH]; simpl; [reflexivity | rewrite IH; reflexivity]. }
  change (String.length (".*" ++ s ++ ".*")) with (S (S (String.length (s ++ ".*")))).
  rewrite L2.
  replace (3 * S (S (String.length s + 2)) + 3)
    with (S (S (S (3 * String.length s + 12)))) by lia.
  change (".*" ++ s ++ ".*") with (String "." (String "*" (s ++ ".*"))).
  assert (Q : parse_seq (S (S (3 * String.length s + 12)))
                (String "." (String "*" (s ++ ".*")))
              = Ok (around s, EmptyString)).
  { rewrite parse_seq_step by reflexivity.
    change (parse_atom (S (3 * String.length s + 12)) (String "." (String "*" (s ++ ".*"))))
      with (@Ok (regex * string) (Dot, String "*" (s ++ ".*"))).
    cbv iota beta.
    destruct (plain_head s P) as (c & t & E & _ & Q1 & Q2 & Q3 & Q4).
    assert (QQ : quantified Dot (String "*" (s ++ ".*")) = Ok (Star Dot, s ++ ".*")).
    { rewrite E. unfold quantified. change (is_quantifier "*") with true.
      change (Ascii.eqb "*" "*") with true. cbv iota.
      rewrite Q1, Q2, Q3, Q4. reflexivity. }
    rewrite QQ.
    rewrite (parse_seq_plain s _ P); [reflexivity | lia]. }
  cbn [parse_alt]. rewrite Q. reflexivity.
Qed.

Lemma dialect_plain (s : string) :
  plain s = true ->
  dialect (".*" ++ s ++ ".*") "i" = Some (inr (search true (around s))).
Proof. intros P. unfold dialect. simpl caseless_option. rewrite (parse_around s P). reflexivity. Qed.

(** ** Lookup by description: a plain text *)

(** An engine that follows the dialect agrees with it wherever the dialect
    speaks. *)
Lemma engine_agrees (beyond : RegexEngine) (pattern options : string)
    (verdict : Js.Error + (string -> bool)) :
  dialect pattern options = Some verdict ->
  agrees_with_dialect (engine beyond) pattern options.
Proof.
  intros D. unfold agrees_with_dialect, engine. rewrite D.
  destruct verdict; [exact I | reflexivity].
Qed.

(** When the server's engine gives the dialect's verdict on the pattern of
    a text, and that verdict is the search for [r], the filter selects the
    documents whose description [r] is found in. *)
Lemma selected_by_dialect (s : Server) (text : string) (r : regex)
    (docs : list Bson.Document) :
  dialect (pattern_of text) "i" = Some (inr (search true r)) ->
  agrees_with_dialect (pcre s) (pattern_of text) "i" ->
  reported s (by_description (Js.JsString text)) = outage s /\
  selected s (by_description (Js.JsString text)) docs
  = List.filter (fun d => match Bson.get d "itemDescription" with
                          | Some (Bson.Str v) => search true r v
                          | _ => false
                          end) docs.
Proof.
  intros D A. unfold agrees_with_dialect in A. rewrite D in A.
  destruct (pcre s (pattern_of text) "i") as [e|found] eqn:E; [destruct A|].
  assert (C : compile s (by_description (Js.JsString text))
              = inr (fun d => match Bson.get d "itemDescription" with
                              | Some (Bson.Str v) => found v
                              | _ => false
                              end)).
  { unfold compile, by_description. cbn [criterion field Js.ToString].
    fold (pattern_of text). rewrite E. reflexivity. }
  split.
  - unfold reported. rewrite C. destruct (outage s); reflexivity.
  - unfold selected. rewrite C. apply List.filter_ext. intros d.
    destruct (Bson.get d "itemDescription") as [[| | |v|]|]; try reflexivity.
    apply A.
Qed.

(** The filter of a plain text selects the documents whose description
    contains it, letter case apart. *)
Lemma selected_plain (s : Server) (text : string) (docs : list Bson.Document) :
  agrees_with_dialect (pcre s) (pattern_of text) "i" -> plain text = true ->
  reported s (by_description (Js.JsString text)) = outage s /\
  selected s (by_description (Js.JsString text)) docs
  = List.filter (describes text) docs.
Proof.
  intros A P.
  destruct (selected_by_dialect s text (around text) docs (dialect_plain text P) A)
    as [Rep Sel].
  split; [exact Rep|]. rewrite Sel. apply List.filter_ext. intros d. unfold describes.
  destruct (Bson.get d "itemDescription") as [[| | |v|]|]; try reflexivity.
  apply search_around.
Qed.

(** X6.  For a text without metacharacters [findByDescription] is the
    containment search.  When the server's engine reads the one pattern
    sent, [.*text.*] with option [i], as the dialect does, the promise
    resolves with the array of the stored items whose description contains
    the text, letter case apart, and every such item is in the array, with
    status 200. *)
Theorem findByDescription_plain_text_contains (w : World) (text : string) :
  ready w ->
  outage (mongod w) = None ->
  agrees_with_dialect (pcre (mongod w)) (pattern_of text) "i" ->
  plain text = true ->
  let hits := List.filter (describes text) (items w) in
  fst (findByDescription (Js.JsString text) w)
    = Resolved (mkEnvelope (Json.stringify (Json.of_documents hits))
                  (if (0 <? length hits)%nat then 200 else 404)) /\
  forall d, In d (items w) -> describes text d = true ->
            In d hits /\ (if (0 <? length hits)%nat then 200 else 404)%Z = 200%Z.
Proof.
  intros R O A P hits.
  destruct (selected_plain (mongod w) text (items w) A P) as [Rep Sel].
  rewrite O in Rep. split.
  - rewrite (findByDescription_run w _ R). cbv zeta.
    rewrite (answer_success _ _ _ Rep), Sel. reflexivity.
  - intros d I D.
    assert (H : In d hits) by (apply List.filter_In; auto).
    split; [exact H|]. destruct hits; [destruct H | reflexivity].
Qed.

Lemma findByDescription_plain_text_contains_witness :
  ready (connected (catalogue dialect_only None)) /\
  agrees_with_dialect dialect_only (pattern_of "WIDGET") "i" /\
  plain "WIDGET" = true /\
  fst (findByDescription (Js.JsString "WIDGET") (connected (catalogue dialect_only None)))
    = Resolved (mkEnvelope (Json.stringify (Json.of_documents [red_widget])) 200).
Proof.
  assert (R : ready (connected (catalogue dialect_only None)))
    by (exists (mkDb "catalog"); reflexivity).
  assert (A : agrees_with_dialect dialect_only (pattern_of "WIDGET") "i")
    by (exact (engine_agrees _ _ _ _ (dialect_plain "WIDGET" eq_refl))).
  split; [exact R|]. split; [exact A|]. split; [reflexivity|].
  exact (proj1 (findByDescription_plain_text_contains _ "WIDGET" R eq_refl A eq_refl)).
Defined.

(** * Further properties of the lookups *)

(** ** What a call leaves behind *)

(** The world after [findById], case by case. *)
Lemma findById_world (w : World) (id : string) :
  snd (findById id w) = w \/
  (exists oid d,
      ObjectID.new id = inr oid /\
      fst (findById id w)
        = Resolved (mkEnvelope (Json.stringify (Json.of_document d)) 200) /\
      snd (findById id w) = send (FindOne (mkCollection "items") (by_id oid)) w) \/
  (exists oid r msg,
      ObjectID.new id = inr oid /\
      fst (findById id w) = Rejected r /\
      snd (findById id w)
        = snd (logger_error msg "findById()"
                 (send (FindOne (mkCollection "items") (by_id oid)) w))).
Proof.
  case_eq (db w); [intros h H | intros H].
  - assert (R : ready w) by (exists h; exact H).
    case_eq (ObjectID.new id); [intros e E | intros oid E].
    + left. rewrite (findById_bad_id w id e R E). reflexivity.
    + right. rewrite (findById_run w id oid R E). cbv zeta.
      destruct (answer (mongod w) (by_id oid) _) as [err|[d|]].
      * right. exists oid, (Failure err), ("Error occurred: " ++ Js.message err). auto.
      * left. exists oid, d. auto.
      * right. exists oid, (Message (not_found_message id)), (not_found_message id). auto.
  - left. destruct (no_handle_findById w id H) as [_ N]. rewrite N. reflexivity.
Qed.

Lemma findByDescription_world (w : World) (v : Js.Value) :
  (db w = None /\ snd (findByDescription v w) = w) \/
  (ready w /\
   snd (findByDescription v w)
     = send (Find (mkCollection "items") (by_description v)) w).
Proof.
  case_eq (db w); [intros h H | intros H].
  - assert (R : ready w) by (exists h; exact H).
    right. split; [exact R|].
    rewrite (findByDescription_run w v R). cbv zeta.
    destruct (answer (mongod w) (by_description v) _); reflexivity.
  - left. split; [reflexivity|].
    destruct (no_handle_findByDescription w v H) as [_ N]. rewrite N. reflexivity.
Qed.

Lemma findByUpc_world (w : World) (v : Js.Value) :
  (db w = None /\ snd (findByUpc v w) = w) \/
  (ready w /\ (exists env, fst (findByUpc v w) = Resolved env) /\
   snd (findByUpc v w) = send (FindOne (mkCollection "items") (by_upc v)) w) \/
  (ready w /\ exists err,
      fst (findByUpc v w) = Rejected (Failure err) /\
      snd (findByUpc v w)
        = snd (logger_error ("Error occurred: " ++ Js.message err) "findById()"
                 (send (FindOne (mkCollection "items") (by_upc v)) w))).
Proof.
  case_eq (db w); [intros h H | intros H].
  - assert (R : ready w) by (exists h; exact H).
    right. rewrite (findByUpc_run w v R). cbv zeta.
    destruct (answer (mongod w) (by_upc v) _) as [err|r].
    + right. split; [exact R|]. exists err. auto.
    + left. split; [exact R|]. split; [eexists; reflexivity | reflexivity].
  - left. split; [reflexivity|].
    destruct (no_handle_findByUpc w v H) as [_ N]. rewrite N. reflexivity.
Qed.

Lemma list_append_one_neq {A} (l : list A) (x : A) : (l ++ [x])%list <> l.
Proof.
  intros E. apply (f_equal (@length A)) in E. rewrite List.length_app in E. simpl in E. lia.
Qed.

(** ** The journal *)

(** X1.  What the lookups write to the log.  [findByDescription] never
    writes a record, not even when the store fails.  [findById] and
    [findByUpc] write at most one record per call, at error level and under
    the label ["findById()"] (also in [findByUpc]); they write none when
    the promise resolves, and none when no request went out (an error
    thrown inside the executor, for a missing handle or an unreadable
    identifier, is not logged). *)
Theorem lookups_log_failures_only (w : World) (id : string) (v : Js.Value) :
  journal (snd (findByDescription v w)) = journal w /\
  ((journal (snd (findById id w)) = journal w \/
    exists msg, journal (snd (findById id w))
                = (journal w ++ [mkLog Error msg "findById()"])%list) /\
   (forall env, fst (findById id w) = Resolved env ->
                journal (snd (findById id w)) = journal w) /\
   (wire (snd (findById id w)) = wire w ->
    journal (snd (findById id w)) = journal w)) /\
  ((journal (snd (findByUpc v w)) = journal w \/
    exists msg, journal (snd (findByUpc v w))
                = (journal w ++ [mkLog Error msg "findById()"])%list) /\
   (forall env, fst (findByUpc v w) = Resolved env ->
                journal (snd (findByUpc v w)) = journal w) /\
   (wire (snd (findByUpc v w)) = wire w ->
    journal (snd (findByUpc v w)) = journal w)).
Proof.
  split; [|split].
  - destruct (findByDescription_world w v) as [[_ E]|[_ E]]; rewrite E; reflexivity.
  - destruct (findById_world w id) as [E|[(oid & d & _ & P & E)|(oid & r & msg & _ & P & E)]].
    + rewrite E. repeat split; auto.
    + rewrite E. repeat split; auto.
    + rewrite E, P. split; [right; exists msg; reflexivity|].
      split; [discriminate|].
      simpl. intros W. exfalso. apply (list_append_one_neq _ _ W).
  - destruct (findByUpc_world w v) as [[_ E]|[(_ & _ & E)|(_ & err & P & E)]].
    + rewrite E. repeat split; auto.
    + rewrite E. repeat split; auto.
    + rewrite E, P. split; [right; eexists; reflexivity|].
      split; [discriminate|].
      simpl. intros W. exfalso. apply (list_append_one_neq _ _ W).
Qed.

(** A miss on the connected catalogue: one error record; the store being
    down: one error record from [findByUpc], under the same label. *)
Lemma lookups_log_failures_only_witness :
  fst (findById "catalog-0009" (connected (catalogue dialect_only None)))
    = Rejected (Message (not_found_message "catalog-0009")) /\
  journal (snd (findById "catalog-0009" (connected (catalogue dialect_only None))))
    = (journal (connected (catalogue dialect_only None))
         ++ [mkLog Error (not_found_message "catalog-0009") "findById()"])%list /\
  journal (snd (findByDescription (Js.JsString "widget")
                  (connected (catalogue dialect_only (Some network_down)))))
    = journal (connected (catalogue dialect_only (Some network_down))).
Proof.
  split; [reflexivity|]. split; [reflexivity|].
  exact (proj1 (lookups_log_failures_only
                  (connected (catalogue dialect_only (Some network_down)))
                  "catalog-0009" (Js.JsString "widget"))).
Defined.

(** ** The wire *)

(** X2.  What the lookups ask of the store.  A call puts at most one
    request on the wire, whatever its outcome, and the request always reads
    the collection ["items"]: a [findOne] on [_id] or on [upc], or a [find]
    on [itemDescription].  Without a handle no request goes out; with a
    handle [findByDescription] and [findByUpc] send exactly one. *)
Theorem lookups_send_one_request (w : World) (id : string) (v : Js.Value) :
  (wire (snd (findById id w)) = wire w \/
   exists oid, ObjectID.new id = inr oid /\
     wire (snd (findById id w))
       = (wire w ++ [FindOne (mkCollection "items") (mkFilter "_id" (EqOid oid))])%list) /\
  (wire (snd (findByDescription v w))
     = (match db w with
        | Some _ => wire w ++ [Find (mkCollection "items") (by_description v)]
        | None => wire w
        end)%list) /\
  (wire (snd (findByUpc v w))
     = (match db w with
        | Some _ => wire w ++ [FindOne (mkCollection "items") (by_upc v)]
        | None => wire w
        end)%list) /\
  (db w = None -> wire (snd (findById id w)) = wire w).
Proof.
  split; [|split; [|split]].
  - destruct (findById_world w id) as [E|[(oid & d & N & _ & E)|(oid & r & msg & N & _ & E)]].
    + left. rewrite E. reflexivity.
    + right. exists oid. rewrite E. auto.
    + right. exists oid. rewrite E. auto.
  - destruct (findByDescription_world w v) as [[D E]|[[h D] E]]; rewrite E, D; reflexivity.
  - destruct (findByUpc_world w v) as [[D E]|[([h D] & _ & E)|([h D] & err & _ & E)]];
      rewrite E, D; reflexivity.
  - intros D. destruct (no_handle_findById w id D) as [_ N]. rewrite N. reflexivity.
Qed.

Lemma lookups_send_one_request_witness :
  db (module_loaded (catalogue dialect_only None)) = None /\
  wire (snd (findById "catalog-0001" (module_loaded (catalogue dialect_only None))))
    = wire (module_loaded (catalogue dialect_only None)).
Proof.
  split; [reflexivity|].
  destruct (lookups_send_one_request (module_loaded (catalogue dialect_only None))
              "catalog-0001" (Js.JsString "widget")) as (_ & _ & _ & N).
  exact (N eq_refl).
Defined.

(** ** Calls in sequence *)

(** A call reads the handle and the server, nothing else of the world. *)
Lemma call_reads_handle_and_server (c : Call) (w w' : World) :
  db w = db w' -> mongod w = mongod w' -> fst (call c w) = fst (call c w').
Proof.
  intros D M.
  assert (I : items w = items w') by (unfold items; rewrite M; reflexivity).
  case_eq (db w); [intros h H | intros H].
  - assert (R : ready w) by (exists h; exact H).
    assert (R' : ready w') by (exists h; rewrite <- D; exact H).
    destruct c as [id|v|v]; cbn [call].
    + case_eq (ObjectID.new id); [intros e E | intros oid E].
      * rewrite (findById_bad_id w id e R E), (findById_bad_id w' id e R' E). reflexivity.
      * rewrite (findById_run w id oid R E), (findById_run w' id oid R' E). cbv zeta.
        rewrite <- M, <- I.
        destruct (answer (mongod w) (by_id oid) _) as [err|[d|]]; reflexivity.
    + rewrite (findByDescription_run w v R), (findByDescription_run w' v R'). cbv zeta.
      rewrite <- M, <- I.
      destruct (answer (mongod w) (by_description v) _); reflexivity.
    + rewrite (findByUpc_run w v R), (findByUpc_run w' v R'). cbv zeta.
      rewrite <- M, <- I.
      destruct (answer (mongod w) (by_upc v) _) as [err|[d|]]; reflexivity.
  - assert (H' : db w' = None) by (rewrite <- D; exact H).
    destruct c as [id|v|v]; cbn [call].
    + destruct (no_handle_findById w id H) as [_ N].
      destruct (no_handle_findById w' id H') as [_ N']. rewrite N, N'. reflexivity.
    + destruct (no_handle_findByDescription w v H) as [_ N].
      destruct (no_handle_findByDescription w' v H') as [_ N']. rewrite N, N'. reflexivity.
    + destruct (no_handle_findByUpc w v H) as [_ N].
      destruct (no_handle_findByUpc w' v H') as [_ N']. rewrite N, N'. reflexivity.
Qed.

Lemma call_frame (c : Call) (w : World) :
  mongod (snd (call c w)) = mongod w /\ db (snd (call c w)) = db w.
Proof.
  destruct c as [id|v|v]; cbn [call];
    [apply findById_frame | apply findByDescription_frame | apply findByUpc_frame].
Qed.

Lemma extends_refl {A} (l : list A) : extends l l.
Proof. exists []. symmetry. apply List.app_nil_r. Qed.

Lemma extends_trans {A} (l1 l2 l3 : list A) :
  extends l1 l2 -> extends l2 l3 -> extends l1 l3.
Proof.
  intros [m1 E1] [m2 E2]. exists (m1 ++ m2)%list. rewrite E2, E1, List.app_assoc. reflexivity.
Qed.

Lemma call_grows (c : Call) (w : World) :
  extends (journal w) (journal (snd (call c w))) /\
  extends (wire w) (wire (snd (call c w))).
Proof.
  destruct c as [id|v|v]; cbn [call].
  - destruct (findById_world w id) as [E|[(oid & d & _ & _ & E)|(oid & r & msg & _ & _ & E)]];
      rewrite E; split; try apply extends_refl; eexists; reflexivity.
  - destruct (findByDescription_world w v) as [[_ E]|[_ E]];
      rewrite E; split; try apply extends_refl; eexists; reflexivity.
  - destruct (findByUpc_world w v) as [[_ E]|[(_ & _ & E)|(_ & err & _ & E)]];
      rewrite E; split; try apply extends_refl; eexists; reflexivity.
Qed.

Lemma call_all_cons (c : Call) (cs : list Call) (w : World) :
  call_all (c :: cs) w
  = (fst (call c w) :: fst (call_all cs (snd (call c w))),
     snd (call_all cs (snd (call c w)))).
Proof.
  cbn [call_all]. destruct (call c w) as [p w1]. cbn [fst snd].
  destruct (call_all cs w1) as [ps w2]. reflexivity.
Qed.

(** X3.  Lookups issued one after the other do not affect each other: each
    promise of the sequence is the promise the same call gives when it is
    made alone on the initial world. *)
Theorem calls_do_not_interfere (cs : list Call) (w : World) :
  fst (call_all cs w) = map (fun c => fst (call c w)) cs.
Proof.
  revert w. induction cs as [|c cs IH]; intros w; [reflexivity|].
  rewrite call_all_cons. cbn [fst map]. f_equal.
  rewrite IH. apply map_ext. intros c'.
  destruct (call_frame c w) as [M D].
  apply call_reads_handle_and_server; assumption.
Qed.

(** X4.  No sequence of lookups writes the shared handle or changes the
    server: after any number of calls [db] and the server are the ones
    before, so a handle that was initialised stays so; the journal and the
    wire only grow at their end. *)
Theorem calls_keep_handle_and_server (cs : list Call) (w : World) :
  db (snd (call_all cs w)) = db w /\
  mongod (snd (call_all cs w)) = mongod w /\
  (ready w -> ready (snd (call_all cs w))) /\
  extends (journal w) (journal (snd (call_all cs w))) /\
  extends (wire w) (wire (snd (call_all cs w))).
Proof.
  revert w. induction cs as [|c cs IH]; intros w.
  - cbn. repeat split; auto; apply extends_refl.
  - rewrite call_all_cons. cbn [snd].
    destruct (IH (snd (call c w))) as (D & M & _ & J & W).
    destruct (call_frame c w) as [M1 D1].
    destruct (call_grows c w) as [J1 W1].
    assert (D2 : db (snd (call_all cs (snd (call c w)))) = db w) by congruence.
    split; [exact D2|]. split; [congruence|].
    split; [intros [h H]; exists h; congruence|].
    split; eapply extends_trans; eassumption.
Qed.

Lemma calls_keep_handle_and_server_witness :
  ready (connected (catalogue dialect_only None)) /\
  ready (snd (call_all [CallFindById "999"; CallFindByUpc (Js.JsString "00012345")]
                (connected (catalogue dialect_only None)))).
Proof.
  assert (R : ready (connected (catalogue dialect_only None)))
    by (exists (mkDb "catalog"); reflexivity).
  split; [exact R|].
  destruct (calls_keep_handle_and_server
              [CallFindById "999"; CallFindByUpc (Js.JsString "00012345")]
              (connected (catalogue dialect_only None))) as (_ & _ & K & _).
  exact (K R).
Defined.

(** ** A failed start *)

Lemma call_without_handle (c : Call) (w : World) :
  db w = None ->
  call c w = (Rejected (Failure (Js.undefined_property "collection")), w).
Proof.
  intros H. destruct c as [id|v|v]; cbn [call].
  - apply no_handle_findById, H.
  - apply no_handle_findByDescription, H.
  - apply no_handle_findByUpc, H.
Qed.

(** X5.  When [utils.dbConnect()] fails, [getDbConnection] logs the error
    and nothing else happens: the handle stays undefined, no retry is made,
    and every lookup made afterwards, however many, is rejected with the
    [TypeError] of reading [collection] of [undefined]; none of them
    reaches the store or writes to the journal. *)
Theorem failed_connect_fails_every_lookup (s : Server) (err : Js.Error)
    (cs : list Call) :
  let w := dbConnect_settled (inl err) (module_loaded s) in
  journal w
    = [mkLog Info "Initializing MongoDB connection..."
         "items-dao-mongogb.getDbConnection()";
       mkLog Error ("Error while initializing DB: " ++ Js.message err)
         "items-dao-mongogb.getDbConnection()"] /\
  db w = None /\
  call_all cs w
    = (map (fun _ => Rejected (Failure (Js.undefined_property "collection"))) cs, w).
Proof.
  intros w. split; [reflexivity|]. split; [reflexivity|].
  assert (D : db w = None) by reflexivity.
  clearbody w. induction cs as [|c cs IH]; [reflexivity|].
  rewrite call_all_cons, (call_without_handle c w D). cbn [fst snd map].
  rewrite IH. reflexivity.
Qed.

(** ** Lookup by description: edge cases of the text *)

Lemma contains_empty (h : string) : contains EmptyString h = true.
Proof. rewrite contains_unfold. destruct h; reflexivity. Qed.

Lemma describes_empty (d : Bson.Document) : describes EmptyString d = described d.
Proof.
  unfold describes, described, contains_ci.
  destruct (Bson.get d "itemDescription") as [[| | |v|]|]; try reflexivity.
  apply contains_empty.
Qed.

(** The lookup of a plain text, when the server's engine reads its pattern
    as the dialect does. *)
Lemma findByDescription_plain (w : World) (v : Js.Value) :
  ready w -> outage (mongod w) = None ->
  agrees_with_dialect (pcre (mongod w)) (pattern_of (Js.ToString v)) "i" ->
  plain (Js.ToString v) = true ->
  fst (findByDescription v w)
  = Resolved
      (mkEnvelope
         (Json.stringify
            (Json.of_documents (List.filter (describes (Js.ToString v)) (items w))))
         (if (0 <? length (List.filter (describes (Js.ToString v)) (items w)))%nat
          then 200 else 404)).
Proof.
  intros R O A P.
  destruct (selected_plain (mongod w) (Js.ToString v) (items w) A P) as [Rep Sel].
  rewrite O in Rep.
  rewrite (findByDescription_run w v R). cbv zeta.
  change (by_description v) with (by_description (Js.JsString (Js.ToString v))).
  rewrite (answer_success _ _ _ Rep), Sel. reflexivity.
Qed.

Lemma filter_all {A} (f : A -> bool) (l : list A) :
  (forall x, In x l -> f x = true) -> List.filter f l = l.
Proof.
  induction l as [|x l IH]; intros H; [reflexivity|]. simpl.
  rewrite (H x (or_introl eq_refl)), IH; [reflexivity|].
  intros y I. apply H. right. exact I.
Qed.

(** X7.  The empty text matches every description.  In a collection whose
    items all have a string for a description, and with a server engine
    that reads the pattern sent, [.*.*] with option [i], as the dialect
    does, [findByDescription("")] resolves with the whole collection in
    stored order, with status 200 unless the collection is empty. *)
Theorem findByDescription_empty_text (w : World) :
  ready w -> outage (mongod w) = None ->
  agrees_with_dialect (pcre (mongod w)) (pattern_of EmptyString) "i" ->
  (forall d, In d (items w) -> described d = true) ->
  fst (findByDescription (Js.JsString EmptyString) w)
  = Resolved
      (mkEnvelope (Json.stringify (Json.of_documents (items w)))
         (if (0 <? length (items w))%nat then 200 else 404)).
Proof.
  intros R O A D.
  rewrite (findByDescription_plain w (Js.JsString EmptyString) R O A eq_refl).
  cbn [Js.ToString].
  rewrite (List.filter_ext _ _ describes_empty), (filter_all _ _ D). reflexivity.
Qed.

Lemma findByDescription_empty_text_witness :
  ready (connected (catalogue dialect_only None)) /\
  agrees_with_dialect dialect_only (pattern_of EmptyString) "i" /\
  fst (findByDescription (Js.JsString EmptyString)
         (connected (catalogue dialect_only None)))
  = Resolved
      (mkEnvelope
         (Json.stringify (Json.of_documents [red_widget; salt_pepper])) 200).
Proof.
  assert (R : ready (connected (catalogue dialect_only None)))
    by (exists (mkDb "catalog"); reflexivity).
  assert (A : agrees_with_dialect dialect_only (pattern_of EmptyString) "i")
    by (exact (engine_agrees _ _ _ _ (dialect_plain EmptyString eq_refl))).
  split; [exact R|]. split; [exact A|].
  apply (findByDescription_empty_text _ R eq_refl A).
  intros d [E|[E|[]]]; subst d; reflexivity.
Defined.






Lemma parse_leading_asterisk (rest : string) :
  parse (pattern_of ("*" ++ rest)) = Invalid "nothing to repeat".
Proof.
  unfold parse, pattern_of.
  change (".*" ++ ("*" ++ rest) ++ ".*")
    with (String "." (String "*" (String "*" (rest ++ ".*")))).
  cbn [String.length].
  replace (3 * S (S (S (String.length (rest ++ ".*")))) + 3)
    with (S (S (S (3 * String.length (rest ++ ".*") + 9)))) by lia.
  reflexivity.
Qed.

(** X9.  A text that begins with an asterisk is no pattern: [.**] repeats a
    quantifier.  When the server's engine refuses the pattern sent, as the
    dialect does, the query fails whatever the catalogue holds, and
    [findByDescription] is rejected with the server's error instead of
    searching for the asterisk. *)
Theorem findByDescription_leading_asterisk (w : World) (rest : string) :
  ready w -> outage (mongod w) = None ->
  agrees_with_dialect (pcre (mongod w)) (pattern_of ("*" ++ rest)) "i" ->
  exists refusal,
    pcre (mongod w) (pattern_of ("*" ++ rest)) "i" = inl refusal /\
    fst (findByDescription (Js.JsString ("*" ++ rest)) w)
    = Rejected (Failure refusal).
Proof.
  intros R O A. unfold agrees_with_dialect, dialect in A.
  cbn [caseless_option String.eqb Ascii.eqb Bool.eqb] in A.
  rewrite parse_leading_asterisk in A.
  destruct (pcre (mongod w) (pattern_of ("*" ++ rest)) "i") as [refusal|found] eqn:E;
    [|destruct A].
  exists refusal. split; [reflexivity|].
  assert (F : reported (mongod w) (by_description (Js.JsString ("*" ++ rest)))
              = Some refusal).
  { unfold reported, compile, by_description. rewrite O.
    cbn [criterion field Js.ToString]. fold (pattern_of ("*" ++ rest)).
    rewrite E. reflexivity. }
  rewrite (findByDescription_run w _ R). cbv zeta.
  rewrite (answer_failure _ _ _ _ F). reflexivity.
Qed.

Lemma findByDescription_leading_asterisk_witness :
  ready (connected (catalogue dialect_only None)) /\
  agrees_with_dialect dialect_only (pattern_of "*Widget") "i" /\
  exists refusal,
    fst (findByDescription (Js.JsString "*Widget")
           (connected (catalogue dialect_only None)))
    = Rejected (Failure refusal).
Proof.
  assert (R : ready (connected (catalogue dialect_only None)))
    by (exists (mkDb "catalog"); reflexivity).
  assert (A : agrees_with_dialect dialect_only (pattern_of "*Widget") "i")
    by (exact (engine_agrees _ (pattern_of "*Widget") "i" _ eq_refl)).
  split; [exact R|]. split; [exact A|].
  destruct (findByDescription_leading_asterisk _ "Widget" R eq_refl A)
    as (refusal & _ & E).
  exists refusal. exact E.
Defined.

Lemma has_visible_append (s t : string) :
  has_visible (s ++ t) = has_visible s || has_visible t.
Proof.
  induction s as [|c s IH]; [reflexivity|]. simpl. rewrite IH. apply orb_assoc.
Qed.

Lemma has_visible_split (v : string) :
  has_visible v = true ->
  exists a d b, v = a ++ String d b /\ Ascii.eqb d newline = false.
Proof.
  induction v as [|c v IH]; [discriminate|]. simpl.
  destruct (Ascii.eqb c newline) eqn:N; simpl.
  - intros H. destruct (IH H) as (a & d & b & E & D).
    exists (String c a), d, b. subst v. auto.
  - intros _. exists EmptyString, c, v. auto.
Qed.

(** The pattern [.*..*]. *)
Lemma search_any_character (v : string) :
  search true (Seq (Star Dot) (Seq Dot (Seq (Star Dot) Eps))) v = has_visible v.
Proof.
  apply Bool.eq_iff_eq_true. rewrite search_spec. split.
  - intros (a & p & b & E & H).
    apply seq_inv in H. destruct H as (u & q & E1 & _ & H).
    apply seq_inv in H. destruct H as (x & y & E2 & H & _).
    inversion H as [| |d D| | | | |]; subst.
    rewrite !has_visible_append. cbn [has_visible]. rewrite D.
    cbn [negb orb]. rewrite !orb_true_r. reflexivity.
  - intros H. destruct (has_visible_split v H) as (a & d & b & E & D).
    exists a, (String d EmptyString), b. split; [exact E|].
    apply (MSeq true (Star Dot) _ EmptyString (String d EmptyString)); [constructor|].
    apply (MSeq true Dot _ (String d EmptyString) EmptyString); [constructor; exact D|].
    apply (MSeq true (Star Dot) Eps EmptyString EmptyString); constructor.
Qed.

(** X10.  A dot in the text is the pattern's wildcard: when the server's
    engine reads the pattern sent, [.*..*] with option [i], as the dialect
    does, [findByDescription(".")] resolves with every item whose
    description holds a character other than a line feed, whether or not a
    dot occurs in it. *)
Theorem findByDescription_dot_is_wildcard (w : World) :
  ready w -> outage (mongod w) = None ->
  agrees_with_dialect (pcre (mongod w)) (pattern_of ".") "i" ->
  fst (findByDescription (Js.JsString ".") w)
  = Resolved
      (mkEnvelope
         (Json.stringify (Json.of_documents (List.filter visibly_described (items w))))
         (if (0 <? length (List.filter visibly_described (items w)))%nat
          then 200 else 404)).
Proof.
  intros R O A.
  destruct (selected_by_dialect (mongod w) "."
              (Seq (Star Dot) (Seq Dot (Seq (Star Dot) Eps))) (items w) eq_refl A)
    as [Rep Sel].
  rewrite O in Rep.
  rewrite (findByDescription_run w _ R). cbv zeta.
  rewrite (answer_success _ _ _ Rep), Sel.
  rewrite (List.filter_ext _ visibly_described); [reflexivity|].
  intros d. unfold visibly_described.
  destruct (Bson.get d "itemDescription") as [[| | |v|]|]; try reflexivity.
  apply search_any_character.
Qed.

Lemma findByDescription_dot_is_wildcard_witness :
  ready (connected (catalogue dialect_only None)) /\
  agrees_with_dialect dialect_only (pattern_of ".") "i" /\
  contains_ci "." "Red Widget" = false /\
  fst (findByDescription (Js.JsString ".") (connected (catalogue dialect_only None)))
  = Resolved
      (mkEnvelope (Json.stringify (Json.of_documents [red_widget; salt_pepper])) 200).
Proof.
  assert (R : ready (connected (catalogue dialect_only None)))
    by (exists (mkDb "catalog"); reflexivity).
  assert (A : agrees_with_dialect dialect_only (pattern_of ".") "i")
    by (exact (engine_agrees _ (pattern_of ".") "i" _ eq_refl)).
  split; [exact R|]. split; [exact A|]. split; [reflexivity|].
  exact (findByDescription_dot_is_wildcard _ R eq_refl A).
Defined.

(** ** Lookup by identifier: how an identifier may be written *)

Lemma hex_decode_upper_char (c : ascii) (r : string) :
  ObjectID.hex_decode (uppercase (ObjectID.hex_encode (String c r)))
  = option_map (String c) (ObjectID.hex_decode (uppercase (ObjectID.hex_encode r))).
Proof.
  each_char c; cbn [ObjectID.hex_encode];
    (destruct (ObjectID.hex_decode (uppercase (ObjectID.hex_encode r))) as [t|] eqn:E;
     cbn - [ObjectID.hex_encode uppercase]; cbn [uppercase];
     cbn - [ObjectID.hex_encode uppercase]; rewrite E; reflexivity).
Qed.

Lemma hex_decode_upper (s : string) :
  ObjectID.hex_decode (uppercase (ObjectID.hex_encode s)) = Some s.
Proof.
  induction s as [|c s IH]; [reflexivity|].
  rewrite hex_decode_upper_char, IH. reflexivity.
Qed.

Lemma uppercase_length (s : string) : String.length (uppercase s) = String.length s.
Proof. induction s as [|c s IH]; simpl; [|rewrite IH]; reflexivity. Qed.

Lemma findById_hit (w : World) (d : Bson.Document) (id : string) :
  ready w -> outage (mongod w) = None -> unique_ids (items w) -> In d (items w) ->
  ObjectID.new id = inr (Bson._id d) ->
  fst (findById id w)
  = Resolved (mkEnvelope (Json.stringify (Json.of_document d)) 200).
Proof.
  intros R O U I N.
  rewrite (findById_run w id (Bson._id d) R N). cbv zeta.
  rewrite answer_by_id, O, (find_by_unique_id _ d U I). reflexivity.
Qed.

(** X12.  The driver reads an identifier in three spellings and [findById]
    finds the stored item under each: its twenty-four hexadecimal digits in
    lower case, the same digits in upper case, and the twelve raw
    characters themselves. *)
Theorem findById_spellings (w : World) (d : Bson.Document) :
  ready w -> outage (mongod w) = None -> unique_ids (items w) -> In d (items w) ->
  ObjectID.well_formed (Bson._id d) ->
  let found := Resolved (mkEnvelope (Json.stringify (Json.of_document d)) 200) in
  fst (findById (ObjectID.toHexString (Bson._id d)) w) = found /\
  fst (findById (uppercase (ObjectID.toHexString (Bson._id d))) w) = found /\
  fst (findById (ObjectID.id (Bson._id d)) w) = found.
Proof.
  intros R O U I WF found. unfold found.
  split; [|split]; apply findById_hit; auto.
  - apply new_toHexString, WF.
  - destruct (Bson._id d) as [raw]. unfold ObjectID.well_formed in WF. simpl in WF.
    unfold ObjectID.new, ObjectID.toHexString. cbn [ObjectID.id].
    rewrite uppercase_length, hex_encode_length, WF, hex_decode_upper. reflexivity.
  - destruct (Bson._id d) as [raw]. unfold ObjectID.well_formed in WF. simpl in WF.
    unfold ObjectID.new. cbn [ObjectID.id]. rewrite WF. reflexivity.
Qed.

Lemma findById_spellings_witness :
  ready (connected (catalogue dialect_only None)) /\
  fst (findById "636174616C6F672D30303031" (connected (catalogue dialect_only None)))
    = Resolved (mkEnvelope (Json.stringify (Json.of_document red_widget)) 200) /\
  fst (findById "catalog-0001" (connected (catalogue dialect_only None)))
    = Resolved (mkEnvelope (Json.stringify (Json.of_document red_widget)) 200).
Proof.
  assert (R : ready (connected (catalogue dialect_only None)))
    by (exists (mkDb "catalog"); reflexivity).
  assert (U : unique_ids (items (connected (catalogue dialect_only None)))).
  { unfold unique_ids. simpl. repeat constructor; simpl; intuition discriminate. }
  assert (I : In red_widget (items (connected (catalogue dialect_only None))))
    by (left; reflexivity).
  split; [exact R|].
  destruct (findById_spellings _ red_widget R eq_refl U I eq_refl) as (_ & A & B).
  split; [exact A | exact B].
Defined.

(** X13.  An identifier the driver cannot read (a string of a length other
    than twelve and twenty-four, the empty string among them, or
    twenty-four characters that are not all hexadecimal digits) is refused
    before anything else happens: the promise is rejected with the
    driver's argument error and the world is the one before the call; no
    request was sent and nothing was logged. *)
Theorem findById_unreadable_leaves_no_trace (w : World) (id : string) :
  ready w ->
  (String.length id <> 12 /\ String.length id <> 24) \/
  (String.length id = 24 /\ ObjectID.hex_decode id = None) ->
  findById id w = (Rejected (Failure ObjectID.invalid_argument), w).
Proof.
  intros R C. apply (findById_bad_id w id _ R).
  unfold ObjectID.new. destruct C as [[L12 L24]|[L24 H]].
  - apply Nat.eqb_neq in L12, L24. rewrite L24, L12. reflexivity.
  - rewrite L24, H. reflexivity.
Qed.

Lemma findById_unreadable_leaves_no_trace_witness :
  ready (connected (catalogue dialect_only None)) /\
  findById EmptyString (connected (catalogue dialect_only None))
  = (Rejected (Failure ObjectID.invalid_argument),
     connected (catalogue dialect_only None)).
Proof.
  assert (R : ready (connected (catalogue dialect_only None)))
    by (exists (mkDb "catalog"); reflexivity).
  split; [exact R|].
  apply (findById_unreadable_leaves_no_trace _ EmptyString R).
  left. split; discriminate.
Defined.

(** ** Status and payload *)

(** X14.  In a resolved envelope the status and the payload say the same
    thing: for [findByDescription] the status is 404 exactly when the data
    is the text of the empty array, for [findByUpc] exactly when the data
    is the text [null], and for [findById] the status is 200 and the data
    is never [null]. *)
Theorem status_agrees_with_payload (w : World) (id : string) (v : Js.Value)
    (env : Envelope) :
  (fst (findById id w) = Resolved env ->
   statusCode env = 200%Z /\ data env <> "null") /\
  (fst (findByDescription v w) = Resolved env ->
   (statusCode env = 404%Z <-> data env = "[]")) /\
  (fst (findByUpc v w) = Resolved env ->
   (statusCode env = 404%Z <-> data env = "null")).
Proof.
  split; [|split]; intros H.
  - apply findById_resolved in H. destruct H as (d & _ & _ & E). subst env.
    split; [reflexivity | discriminate].
  - apply findByDescription_resolved in H. destruct H as ([|d ds] & _ & E); subst env.
    + split; reflexivity.
    + split; intros Q; discriminate Q.
  - apply findByUpc_resolved in H. destruct H as ([d|] & E); subst env.
    + split; intros Q; discriminate Q.
    + split; reflexivity.
Qed.

Lemma status_agrees_with_payload_witness :
  fst (findByUpc (Js.JsString "000123") (connected (catalogue dialect_only None)))
    = Resolved (mkEnvelope "null" 404) /\
  (404%Z = 404%Z <-> "null" = "null").
Proof.
  assert (E : fst (findByUpc (Js.JsString "000123")
                     (connected (catalogue dialect_only None)))
              = Resolved (mkEnvelope "null" 404)) by reflexivity.
  split; [exact E|].
  destruct (status_agrees_with_payload (connected (catalogue dialect_only None))
              "999" (Js.JsString "000123") (mkEnvelope "null" 404)) as (_ & _ & U).
  exact (U E).
Defined.

(** ** Lookup by UPC: a number for an argument *)

Lemma to_int_zero_digit (z : Z) (u : uint) : Z.to_int z = Pos (D0 u) -> u = Nil.
Proof.
  intros E.
  pose proof (DecimalZ.to_of (Z.to_int z)) as H.
  rewrite DecimalZ.of_to, E in H. cbn [norm] in H. injection H as H.
  rewrite DecimalFacts.unorm_D0 in H.
  destruct u as [|u|u|u|u|u|u|u|u|u|u]; [reflexivity| | | | | | | | | |];
    exfalso;
    match type of H with
    | D0 ?x = _ =>
        assert (N : x <> Nil) by discriminate;
        pose proof (DecimalFacts.nb_digits_unorm x N) as L;
        apply (f_equal nb_digits) in H; rewrite <- H in L;
        cbn [nb_digits] in L; lia
    end.
Qed.

Lemma decimal_no_leading_zero (z : Z) : leading_zero (Js.decimal z) = false.
Proof.
  unfold Js.decimal. destruct (Z.to_int z) as [d|d] eqn:E.
  - destruct d as [|u|u|u|u|u|u|u|u|u|u]; try reflexivity;
      try (cbn; destruct (NilEmpty.string_of_uint u); reflexivity).
    rewrite (to_int_zero_digit z u E). reflexivity.
  - cbn. destruct (NilZero.string_of_uint d); reflexivity.
Qed.

(** X15.  An integer passed to [findByUpc] (below 10^21 in magnitude, so
    that JavaScript prints it in plain decimal) is searched for by its
    decimal numeral, which never starts with a zero followed by more
    digits: in a catalogue whose UPCs are all written with a leading zero,
    [findByUpc] of such an integer resolves with [null] and status 404,
    the integer that equals an item's UPC included. *)
Theorem findByUpc_number_loses_leading_zeros (w : World) (z : Z) :
  ready w -> outage (mongod w) = None ->
  prints_in_decimal (Js.JsNumber z) ->
  (forall d, In d (items w) ->
     exists u, Bson.get d "upc" = Some (Bson.Str u) /\ leading_zero u = true) ->
  fst (findByUpc (Js.JsNumber z) w) = Resolved (mkEnvelope "null" 404).
Proof.
  intros R O _ Z0.
  rewrite (findByUpc_run w _ R). cbv zeta. rewrite answer_by_upc, O.
  destruct (List.find _ (items w)) as [d|] eqn:F; [|reflexivity].
  exfalso. apply List.find_some in F. destruct F as [I P].
  destruct (Z0 d I) as (u & G & L).
  unfold has_upc in P. rewrite G in P. apply String.eqb_eq in P. subst u.
  cbn [Js.ToString] in L. rewrite decimal_no_leading_zero in L. discriminate L.
Qed.

Lemma findByUpc_number_loses_leading_zeros_witness :
  ready (connected zero_padded) /\
  prints_in_decimal (Js.JsNumber 12345) /\
  fst (findByUpc (Js.JsNumber 12345) (connected zero_padded))
  = Resolved (mkEnvelope "null" 404).
Proof.
  assert (R : ready (connected zero_padded)) by (exists (mkDb "catalog"); reflexivity).
  assert (B : prints_in_decimal (Js.JsNumber 12345)) by (cbn; lia).
  split; [exact R|]. split; [exact B|].
  apply (findByUpc_number_loses_leading_zeros _ 12345 R eq_refl B).
  intros d [E|[]]. subst d. exists "00012345". split; reflexivity.
Defined.

(** ** The Brand schema: blank and unknown fields *)

(** X16.  A required field of a brand that is absent, [null] or, for the
    description, the empty string makes the schema reject the document,
    whatever else the document holds. *)
Theorem brandSchema_rejects_blank_required (doc : Mongoose.Candidate) (k : string) :
  In k ["_id"; "id"; "description"] ->
  Bson.assoc k doc = None \/ Bson.assoc k doc = Some Bson.Null \/
  (k = "description" /\ Bson.assoc k doc = Some (Bson.Str EmptyString)) ->
  Mongoose.validate brandSchema doc = false.
Proof.
  intros K B. unfold Mongoose.validate, brandSchema. cbn [forallb].
  assert (P : forall ty, Mongoose.validate_path doc (k, Mongoose.mkPath ty true) = false).
  { intros ty. unfold Mongoose.validate_path. cbn [fst snd Mongoose.required Mongoose.type].
    destruct B as [B|[B|[_ B]]]; rewrite B; try reflexivity.
    cbn. apply andb_false_r. }
  destruct K as [<-|[<-|[<-|[]]]]; rewrite P;
    rewrite ?andb_false_r; reflexivity.
Qed.

Lemma brandSchema_rejects_blank_required_witness :
  Mongoose.validate brandSchema
    [("_id", Bson.Oid (ObjectID.mk "brand-000001"));
     ("id", Bson.Oid (ObjectID.mk "brand-000001"));
     ("description", Bson.Str EmptyString);
     ("manufacturer", Bson.Str "Acme Corp")] = false.
Proof.
  apply (brandSchema_rejects_blank_required _ "description").
  - right. right. left. reflexivity.
  - right. right. split; reflexivity.
Defined.

Lemma forallb_agree {A} (f g : A -> bool) (l : list A) :
  (forall x, In x l -> f x = g x) -> forallb f l = forallb g l.
Proof.
  induction l as [|x l IH]; intros H; [reflexivity|]. simpl.
  rewrite (H x (or_introl eq_refl)), IH; [reflexivity|].
  intros y I. apply H. right. exact I.
Qed.

(** X17.  Validation looks at the six paths of the schema only: a field of
    any other name, whatever its value, does not change the verdict on a
    brand. *)
Theorem brandSchema_ignores_other_fields (doc : Mongoose.Candidate) (k : string) :
  ~ In k (map fst brandSchema) ->
  Mongoose.validate brandSchema (Mongoose.without k doc)
  = Mongoose.validate brandSchema doc.
Proof.
  intros N. unfold Mongoose.validate. apply forallb_agree.
  intros [k' o] I. unfold Mongoose.validate_path. cbn [fst snd].
  rewrite assoc_without.
  destruct (String.eqb k k') eqn:E; [|reflexivity].
  apply String.eqb_eq in E. subst k'. exfalso. apply N.
  apply (in_map fst) in I. exact I.
Qed.

Lemma brandSchema_ignores_other_fields_witness :
  Mongoose.validate brandSchema
    (Mongoose.without "logo"
       [("_id", Bson.Oid (ObjectID.mk "brand-000001"));
        ("logo", Bson.Int 7);
        ("id", Bson.Oid (ObjectID.mk "brand-000001"));
        ("description", Bson.Str "Acme")])
  = Mongoose.validate brandSchema
      [("_id", Bson.Oid (ObjectID.mk "brand-000001"));
       ("logo", Bson.Int 7);
       ("id", Bson.Oid (ObjectID.mk "brand-000001"));
       ("description", Bson.Str "Acme")].
Proof.
  apply brandSchema_ignores_other_fields.
  simpl. intuition discriminate.
Defined.

(** ** Lookups that raced the start *)

(** X18.  Lookups made before [utils.dbConnect()] has resolved are
    rejected, and that is all: they leave the world as the module load
    left it, the [then] handler of [getDbConnection] then initialises the
    handle, and a lookup made afterwards gives the promise it would have
    given had nothing been asked before. *)
Theorem early_lookups_do_not_affect_later_ones (s : Server) (database : Db)
    (early : list Call) (c : Call) :
  let raced := snd (call_all early (module_loaded s)) in
  fst (call_all early (module_loaded s))
    = map (fun _ => Rejected (Failure (Js.undefined_property "collection"))) early /\
  raced = module_loaded s /\
  ready (dbConnect_settled (inr database) raced) /\
  fst (call c (dbConnect_settled (inr database) raced))
    = fst (call c (dbConnect_settled (inr database) (module_loaded s))).
Proof.
  intros raced.
  assert (Early : forall w, db w = None ->
            call_all early w
            = (map (fun _ => Rejected (Failure (Js.undefined_property "collection")))
                 early, w)).
  { intros w D. induction early as [|e early IH]; [reflexivity|].
    rewrite call_all_cons, (call_without_handle e w D). cbn [fst snd map].
    rewrite IH. reflexivity. }
  unfold raced. rewrite (Early (module_loaded s) eq_refl). cbn [fst snd].
  split; [reflexivity|]. split; [reflexivity|].
  split; [exists database; reflexivity | reflexivity].
Qed.

(** ** Lookup by description: letter case of the text *)

Lemma to_lower_plain (c : ascii) :
  plain_char c = true ->
  plain_char (to_lower c) = true /\ to_lower (to_lower c) = to_lower c.
Proof. each_char c; intros H; try discriminate H; split; reflexivity. Qed.

Lemma lowercase_plain (s : string) :
  plain s = true ->
  plain (lowercase s) = true /\ lowercase (lowercase s) = lowercase s.
Proof.
  induction s as [|c s IH]; [split; reflexivity|]. simpl. intros H.
  apply andb_true_iff in H. destruct H as [H1 H2].
  destruct (to_lower_plain c H1) as [P1 L1]. destruct (IH H2) as [P2 L2].
  rewrite P1, P2, L1, L2. split; reflexivity.
Qed.

(** X19.  The letter case of a text without metacharacters does not matter:
    when the server's engine reads the two patterns sent, for the text and
    for the text in lower case, as the dialect does, [findByDescription]
    resolves with the same envelope for both. *)
Theorem findByDescription_ignores_case_of_text (w : World) (text : string) :
  ready w -> outage (mongod w) = None ->
  agrees_with_dialect (pcre (mongod w)) (pattern_of text) "i" ->
  agrees_with_dialect (pcre (mongod w)) (pattern_of (lowercase text)) "i" ->
  plain text = true ->
  fst (findByDescription (Js.JsString (lowercase text)) w)
  = fst (findByDescription (Js.JsString text) w).
Proof.
  intros R O A AL P. destruct (lowercase_plain text P) as [PL LL].
  rewrite (findByDescription_plain w (Js.JsString text) R O A P).
  rewrite (findByDescription_plain w (Js.JsString (lowercase text)) R O AL PL).
  cbn [Js.ToString].
  assert (D : forall d, describes (lowercase text) d = describes text d).
  { intros d. unfold describes, contains_ci. rewrite LL. reflexivity. }
  rewrite (List.filter_ext _ _ D). reflexivity.
Qed.

Lemma findByDescription_ignores_case_of_text_witness :
  ready (connected (catalogue dialect_only None)) /\
  agrees_with_dialect dialect_only (pattern_of "WiDgEt") "i" /\
  agrees_with_dialect dialect_only (pattern_of "widget") "i" /\
  plain "WiDgEt" = true /\
  fst (findByDescription (Js.JsString "widget") (connected (catalogue dialect_only None)))
  = fst (findByDescription (Js.JsString "WiDgEt") (connected (catalogue dialect_only None))).
Proof.
  assert (R : ready (connected (catalogue dialect_only None)))
    by (exists (mkDb "catalog"); reflexivity).
  assert (A : agrees_with_dialect dialect_only (pattern_of "WiDgEt") "i")
    by (exact (engine_agrees _ _ _ _ (dialect_plain "WiDgEt" eq_refl))).
  assert (AL : agrees_with_dialect dialect_only (pattern_of "widget") "i")
    by (exact (engine_agrees _ _ _ _ (dialect_plain "widget" eq_refl))).
  split; [exact R|]. split; [exact A|]. split; [exact AL|]. split; [reflexivity|].
  exact (findByDescription_ignores_case_of_text _ "WiDgEt" R eq_refl A AL eq_refl).
Defined.
